(** * IPL cricket analyst: the aggregation engine and the intent router

    A shallow embedding of [app.py]: the data loader (the left join of the
    delivery table with the match table), the four aggregations
    ([top_run_scorers], [top_wicket_takers], [player_stats],
    [player_trend]), the language-model client [llm_answer], the keyword
    router [ask_ai], [compare_players] and the callback [update_player] of
    the player panel.

    Conventions of the embedding.
    - A data frame is the list of its rows, in row order.  A nullable column
      (NaN in pandas) is an [option].  The CSV files hold at least one row
      below their header line: pandas takes the type of a column from its
      rows, and the column types below are those of such files.
    - A Python [str] is a [string] holding its UTF-8 bytes.  Comparing two
      such byte strings lexicographically orders them as Python orders the
      strings by code point, and a byte-wise substring test agrees with
      Python's [in], so both are modelled byte by byte.
    - The integer columns read from the CSV files are 64-bit signed; sums of
      them wrap around, which is written out in [add64].
    - Python exceptions are the [Raise] results of an error monad.
    - What the program takes from its platform without showing it (the
      Unicode tables behind [str.lower] and [str.strip], the printing of a
      float, the remote chat completion) is gathered in the record
      [platform]; every theorem holds for every platform. *)

From Stdlib Require Import ZArith List String Ascii Bool Lia.
From Stdlib Require Import Sorted Permutation OrdersEx DecimalString.
From Stdlib Require Import RelationClasses.
Import ListNotations.

Local Open Scope string_scope.
Local Open Scope list_scope.
Local Open Scope Z_scope.

(** ** Exceptions and the error monad *)

Inductive remote_failure : Type :=
| NetworkFailure
| AuthFailure
| RateLimited
| MalformedResponse.

Inductive exn : Type :=
| ValueError                       (* Series.idxmax of an empty Series *)
| IndexError                       (* DataFrame.iloc[0] of an empty frame *)
| RemoteError (why : remote_failure).

Inductive result (A : Type) : Type :=
| Return (a : A)
| Raise (e : exn).

Arguments Return {A} a.
Arguments Raise {A} e.

Definition bind {A B : Type} (c : result A) (k : A -> result B) : result B :=
  match c with
  | Return a => k a
  | Raise e => Raise e
  end.

Notation "x <- c ;; k" := (bind c (fun x => k))
  (at level 61, c at next level, right associativity).

Definition returns {A : Type} (c : result A) : bool :=
  match c with
  | Return _ => true
  | Raise _ => false
  end.

(** ** 64-bit column arithmetic *)

Definition wrap64 (z : Z) : Z := (z + 2 ^ 63) mod 2 ^ 64 - 2 ^ 63.

Definition add64 (a b : Z) : Z := wrap64 (a + b).

(** [Series.sum] of an int64 column. *)
Definition sum_i64 (l : list Z) : Z := fold_left add64 l 0.

(** The sum of a list of integers, without wrap-around. *)
Definition total (l : list Z) : Z := fold_right Z.add 0 l.

(** ** Strings *)

Definition str_compare : string -> string -> comparison := String_as_OT.compare.

Definition str_lt (a b : string) : Prop := str_compare a b = Lt.

Definition str_ltb (a b : string) : bool :=
  match str_compare a b with
  | Lt => true
  | _ => false
  end.

(** [k in q] for two strings: [k] occurs in [q] as a substring. *)
Fixpoint str_in (k q : string) : bool :=
  if prefix k q then true
  else match q with
       | EmptyString => false
       | String _ q' => str_in k q'
       end.

(** [any(k in q for k in ks)] *)
Definition any_in (ks : list string) (q : string) : bool :=
  existsb (fun k => str_in k q) ks.

Definition nl : string := String (ascii_of_nat 10) EmptyString.

(** The en dash of the prompt's "2-3" rule, in UTF-8. *)
Definition en_dash : string :=
  String (ascii_of_nat 226) (String (ascii_of_nat 128)
    (String (ascii_of_nat 147) EmptyString)).

(** [str(n)] and the [{n}] of an f-string for a Python int. *)
Definition str_of_int (z : Z) : string := NilZero.string_of_int (Z.to_int z).

(** ** The tables *)

Module Matches.
Record row : Type := mk { id : Z; season : option string }.
End Matches.

Module Csv.
(** A row of deliveries.csv, before the join.  [is_wicket] is the 0/1
    column that the program compares with 1; season labels are strings. *)
Record row : Type := mk
  { match_id : Z;
    batter : option string;
    bowler : option string;
    batsman_runs : Z;
    is_wicket : Z }.
End Csv.

(** A row of [deliveries] after the merge: the CSV columns and [season].
    (The merge also adds the column [id], which nothing reads.) *)
Record Delivery : Type := mkDelivery
  { match_id : Z;
    batter : option string;
    bowler : option string;
    batsman_runs : Z;
    is_wicket : Z;
    season : option string }.

Definition with_season (r : Csv.row) (s : option string) : Delivery :=
  {| match_id := Csv.match_id r;
     batter := Csv.batter r;
     bowler := Csv.bowler r;
     batsman_runs := Csv.batsman_runs r;
     is_wicket := Csv.is_wicket r;
     season := s |}.

(** [deliveries.merge(matches[["id", "season"]], left_on="match_id",
    right_on="id", how="left")]: every delivery once per match row with its
    id, in the order of the match table, and once with a null season when
    there is none. *)
Definition merge_left (deliveries : list Csv.row) (matches : list Matches.row)
  : list Delivery :=
  flat_map
    (fun r =>
       match filter (fun m => Matches.id m =? Csv.match_id r) matches with
       | [] => [with_season r None]
       | ms => map (fun m => with_season r (Matches.season m)) ms
       end)
    deliveries.

(** ** Data-frame primitives *)

(** [Series.dropna] *)
Fixpoint dropna {A : Type} (l : list (option A)) : list A :=
  match l with
  | [] => []
  | Some a :: t => a :: dropna t
  | None :: t => dropna t
  end.

(** [Series.unique]: the distinct values in order of first appearance. *)
Fixpoint unique {A : Type} (eqb : A -> A -> bool) (l : list A) : list A :=
  match l with
  | [] => []
  | x :: t => x :: filter (fun y => negb (eqb y x)) (unique eqb t)
  end.

(** [sorted] on strings: stable, ascending. *)
Fixpoint insert_asc (x : string) (l : list string) : list string :=
  match l with
  | [] => [x]
  | y :: t => if str_ltb y x then y :: insert_asc x t else x :: y :: t
  end.

Definition sorted (l : list string) : list string :=
  fold_right insert_asc [] l.

(** The index of a grouped frame: [groupby] drops the rows whose key is null
    and sorts the group keys. *)
Definition group_keys (key : Delivery -> option string) (df : list Delivery)
  : list string :=
  sorted (unique String.eqb (dropna (map key df))).

Definition has_key (key : Delivery -> option string) (k : string)
  (r : Delivery) : bool :=
  match key r with
  | Some k' => String.eqb k' k
  | None => false
  end.

Definition groupby (key : Delivery -> option string) (df : list Delivery)
  : list (string * list Delivery) :=
  map (fun k => (k, filter (has_key key k) df)) (group_keys key df).

(** [groupby(key)[col].sum()] *)
Definition group_sum (col : Delivery -> Z)
  (g : list (string * list Delivery)) : list (string * Z) :=
  map (fun kv => (fst kv, sum_i64 (map col (snd kv)))) g.

(** [groupby(key).size()] *)
Definition group_size (g : list (string * list Delivery)) : list (string * Z) :=
  map (fun kv => (fst kv, Z.of_nat (List.length (snd kv)))) g.

(** [Series.nlargest(n)] with the default [keep="first"]: descending by
    value, and among equal values the earlier entry of the series first,
    which is the order pandas documents for [keep="first"]. *)
Fixpoint insert_desc (x : string * Z) (l : list (string * Z))
  : list (string * Z) :=
  match l with
  | [] => [x]
  | y :: t => if snd x <? snd y then y :: insert_desc x t else x :: y :: t
  end.

Definition sort_desc (s : list (string * Z)) : list (string * Z) :=
  fold_right insert_desc [] s.

Definition nlargest (n : nat) (s : list (string * Z)) : list (string * Z) :=
  firstn n (sort_desc s).

(** [Series.idxmax]: the label of the first maximum; raises on an empty
    series. *)
Fixpoint idxmax_from (best : string * Z) (s : list (string * Z)) : string :=
  match s with
  | [] => fst best
  | y :: t => if snd best <? snd y then idxmax_from y t else idxmax_from best t
  end.

Definition idxmax (s : list (string * Z)) : result string :=
  match s with
  | [] => Raise ValueError
  | x :: t => Return (idxmax_from x t)
  end.

(** [Series.nunique] *)
Definition nunique (l : list Z) : Z := Z.of_nat (List.length (unique Z.eqb l)).

(** [df.iloc[0]] *)
Definition iloc0 {A : Type} (df : list A) : result A :=
  match df with
  | [] => Raise IndexError
  | x :: _ => Return x
  end.

(** ** The platform *)

(** The request of [client.chat.completions.create]. *)
Record ChatRequest : Type := mkChatRequest
  { model : string;
    messages : list (string * string);      (* role, content *)
    temperature : Z * Z;                     (* numerator, denominator *)
    max_tokens : Z }.

(** What the program calls without defining it.  [float_str runs balls] is
    the text of the float [round((runs / balls) * 100, 2)] in an f-string;
    [chat_completion req] is [response.choices[0].message.content] of the
    remote call, or the exception the call raised.  One interaction makes at
    most one remote call, so a function of the request describes it. *)
Record platform : Type := mkPlatform
  { lower : string -> string;
    strip : string -> string;
    float_str : Z -> Z -> string;
    chat_completion : ChatRequest -> result string }.

(** ** Analytics *)

(** The strike rate of [player_stats]: the int [0] of the guard, or the
    float [round((runs / balls) * 100, 2)], kept as its two operands. *)
Inductive strike_rate : Type :=
| SrZero
| SrRound2 (runs balls : Z).

(** [round((runs / balls) * 100, 2) if balls else 0] *)
Definition strike_rate_of (runs balls : Z) : strike_rate :=
  if negb (balls =? 0) then SrRound2 runs balls else SrZero.

Section Analytics.

Variable deliveries : list Delivery.

(** [players = sorted(deliveries["batter"].dropna().unique())] *)
Definition players : list string :=
  sorted (unique String.eqb (dropna (map batter deliveries))).

Definition top_run_scorers : list (string * Z) :=
  nlargest 10 (group_sum batsman_runs (groupby batter deliveries)).

Definition top_wicket_takers : list (string * Z) :=
  nlargest 10
    (group_size
       (groupby bowler (filter (fun r => is_wicket r =? 1) deliveries))).

Definition player_stats (player : string)
  : result (Z * strike_rate * Z * string) :=
  let df := filter (has_key batter player) deliveries in
  let runs := sum_i64 (map batsman_runs df) in
  let balls := Z.of_nat (List.length df) in
  let sr := strike_rate_of runs balls in
  let matches_played := nunique (map match_id df) in
  best_season <- idxmax (group_sum batsman_runs (groupby season df)) ;;
  Return (runs, sr, matches_played, best_season).

Definition player_trend (player : string) : list (string * Z) :=
  group_sum batsman_runs
    (groupby season (filter (has_key batter player) deliveries)).

End Analytics.

(** ** Charts *)

(** [px.bar] draws the rankings and the comparison; [px.line] is the chart
    of the player panel. *)
Inductive chart_kind : Type := Bar | Line.

Record Figure : Type := mkFigure
  { fig_kind : chart_kind;
    fig_data : list (string * Z);
    fig_x : string;
    fig_y : string;
    fig_height : Z;
    fig_colors : list string;
    fig_plot_bgcolor : option string;
    fig_paper_bgcolor : option string }.

(** [px.bar(df, x=.., y=.., height=.., color_discrete_sequence=..)] *)
Definition px_bar (df : list (string * Z)) (x y : string) (height : Z)
  (colors : list string) : Figure :=
  {| fig_kind := Bar; fig_data := df; fig_x := x; fig_y := y;
     fig_height := height; fig_colors := colors;
     fig_plot_bgcolor := None; fig_paper_bgcolor := None |}.

(** [fig.update_layout(plot_bgcolor=.., paper_bgcolor=..)] *)
Definition update_layout (fig : Figure) (plot paper : string) : Figure :=
  {| fig_kind := fig_kind fig; fig_data := fig_data fig; fig_x := fig_x fig;
     fig_y := fig_y fig; fig_height := fig_height fig;
     fig_colors := fig_colors fig;
     fig_plot_bgcolor := Some plot; fig_paper_bgcolor := Some paper |}.

(** ** The language-model client, the router and the comparison *)

Definition cat (parts : list string) : string := String.concat EmptyString parts.

Definition prompt_of (facts question : string) : string :=
  String.concat nl
    [ EmptyString;
      "You are an IPL (Indian Premier League) cricket analyst.";
      EmptyString;
      "RULES:";
      "- Talk ONLY about IPL.";
      "- Use ONLY the facts provided.";
      "- Do NOT mention datasets, calculations, or models.";
      cat ["- 2"; en_dash; "3 crisp professional sentences."];
      "- Sound like Cricinfo / IPL broadcast analysis.";
      EmptyString;
      "FACTS:";
      facts;
      EmptyString;
      "QUESTION:";
      question;
      EmptyString;
      "FINAL IPL ANALYSIS:";
      EmptyString ].

Definition request_of (prompt : string) : ChatRequest :=
  {| model := "llama-3.1-8b-instant";
     messages := [("user", prompt)];
     temperature := (1, 10);
     max_tokens := 180 |}.

Definition run_keywords : list string := ["run"; "runs"; "run scorer"].

Definition wicket_keywords : list string := ["wicket"; "wickets"; "wicket taker"].

Definition fallback_facts : string :=
  "This question relates to IPL cricket but no numerical fact was matched.".

Definition str_of_sr (pf : platform) (sr : strike_rate) : string :=
  match sr with
  | SrZero => "0"
  | SrRound2 runs balls => float_str pf runs balls
  end.

Section Interaction.

Variable pf : platform.
Variable deliveries : list Delivery.

Definition llm_answer (facts question : string) : result string :=
  content <- chat_completion pf (request_of (prompt_of facts question)) ;;
  Return (strip pf content).

(** The body of the first [if] of [ask_ai]. *)
Definition run_scorer_branch (question : string)
  : result (string * option Figure * string) :=
  let df := top_run_scorers deliveries in
  leader <- iloc0 df ;;
  let facts :=
    cat ["In the IPL, "; fst leader; " is the highest run scorer with ";
         str_of_int (snd leader); " runs."] in
  ans <- llm_answer facts question ;;
  let fig := px_bar df "batter" "batsman_runs" 650 ["#4988C4"] in
  let fig := update_layout fig "white" "white" in
  Return (ans, Some fig, EmptyString).

(** The body of the second [if] of [ask_ai]. *)
Definition wicket_taker_branch (question : string)
  : result (string * option Figure * string) :=
  let df := top_wicket_takers deliveries in
  leader <- iloc0 df ;;
  let facts :=
    cat ["In the IPL, "; fst leader; " is the leading wicket taker with ";
         str_of_int (snd leader); " wickets."] in
  ans <- llm_answer facts question ;;
  let fig := px_bar df "bowler" "wickets" 650 ["#1C4D8D"] in
  let fig := update_layout fig "white" "white" in
  Return (ans, Some fig, EmptyString).

(** The final [return] of [ask_ai]. *)
Definition fallback_branch (question : string)
  : result (string * option Figure * string) :=
  ans <- llm_answer fallback_facts question ;;
  Return (ans, None, EmptyString).

Definition ask_ai (question : string)
  : result (string * option Figure * string) :=
  let q := lower pf question in
  if any_in run_keywords q then run_scorer_branch question
  else if any_in wicket_keywords q then wicket_taker_branch question
  else fallback_branch question.

Definition compare_facts (p1 : string) (r1 : Z) (sr1 : strike_rate) (m1 : Z)
  (p2 : string) (r2 : Z) (sr2 : strike_rate) (m2 : Z) : string :=
  String.concat nl
    [ EmptyString;
      "In the IPL:";
      cat [p1; ": "; str_of_int r1; " runs, strike rate "; str_of_sr pf sr1;
           ", "; str_of_int m1; " matches"];
      cat [p2; ": "; str_of_int r2; " runs, strike rate "; str_of_sr pf sr2;
           ", "; str_of_int m2; " matches"];
      EmptyString ].

Definition compare_players (p1 p2 : string) : result (string * Figure) :=
  s1 <- player_stats deliveries p1 ;;
  let '(r1, sr1, m1, _) := s1 in
  s2 <- player_stats deliveries p2 ;;
  let '(r2, sr2, m2, _) := s2 in
  let facts := compare_facts p1 r1 sr1 m1 p2 r2 sr2 m2 in
  ans <- llm_answer facts (cat ["Compare "; p1; " vs "; p2]) ;;
  let fig := px_bar [(p1, r1); (p2, r2)] "Player" "Runs" 550 ["#0F2854"] in
  let fig := update_layout fig "white" "white" in
  Return (ans, fig).

End Interaction.

(** ** The player panel *)

(** The figure of [px.line(df, x=.., y=.., markers=.., height=..,
    color_discrete_sequence=..)]: a figure and its marker switch. *)
Record LineFigure : Type := mkLineFigure
  { line_figure : Figure;
    line_markers : bool }.

Definition px_line (df : list (string * Z)) (x y : string) (markers : bool)
  (height : Z) (colors : list string) : LineFigure :=
  {| line_figure :=
       {| fig_kind := Line; fig_data := df; fig_x := x; fig_y := y;
          fig_height := height; fig_colors := colors;
          fig_plot_bgcolor := None; fig_paper_bgcolor := None |};
     line_markers := markers |}.

Definition update_layout_line (fig : LineFigure) (plot paper : string)
  : LineFigure :=
  {| line_figure := update_layout (line_figure fig) plot paper;
     line_markers := line_markers fig |}.

(** The callback of the player dropdown: the markdown card and the season
    chart.  The first three value lines of the card end in two spaces. *)
Definition update_player (pf : platform) (deliveries : list Delivery)
  (p : string) : result (string * LineFigure) :=
  s <- player_stats deliveries p ;;
  let '(r, sr, m, best) := s in
  let card_md :=
    String.concat nl
      [ EmptyString;
        cat ["### "; p];
        cat ["**Runs:** "; str_of_int r; "  "];
        cat ["**Strike Rate:** "; str_of_sr pf sr; "  "];
        cat ["**Matches:** "; str_of_int m; "  "];
        cat ["**Best Season:** "; best];
        EmptyString ] in
  let fig :=
    px_line (player_trend deliveries p) "season" "batsman_runs" true 550
      ["#4988C4"] in
  let fig := update_layout_line fig "white" "white" in
  Return (card_md, fig).

(** ** Quantities the properties speak of *)

(** The season the match table gives a match id, when ids are unique. *)
Definition lookup_season (matches : list Matches.row) (mid : Z)
  : option string :=
  match find (fun m => Matches.id m =? mid) matches with
  | Some m => Matches.season m
  | None => None
  end.

(** The rows of a player, and their summed runs as [player_stats] and the
    rankings compute them. *)
Definition rows_of (deliveries : list Delivery) (p : string) : list Delivery :=
  filter (has_key batter p) deliveries.

Definition career_runs (deliveries : list Delivery) (p : string) : Z :=
  sum_i64 (map batsman_runs (rows_of deliveries p)).

(** The player has a delivery whose season is known. *)
Definition has_season_row (deliveries : list Delivery) (p : string) : Prop :=
  exists r, In r deliveries /\ batter r = Some p /\ season r <> None.

(** A delivery that names no batter. *)
Definition anonymous (runs : Z) : Delivery :=
  {| match_id := 1; batter := None; bowler := Some "Bumrah";
     batsman_runs := runs; is_wicket := 0; season := Some "2020" |}.

(** A delivery whose match is missing from the match table. *)
Definition unmatched (b : string) (runs : Z) : Delivery :=
  {| match_id := 99; batter := Some b; bowler := Some "Bumrah";
     batsman_runs := runs; is_wicket := 0; season := None |}.

Definition sample_csv : list Csv.row :=
  [ Csv.mk 1 (Some "Kohli") (Some "Bumrah") 4 0;
    Csv.mk 2 (Some "Dhoni") (Some "Malinga") 6 1;
    Csv.mk 5 (Some "Gill") None 1 0 ].

Definition sample_matches : list Matches.row :=
  [ Matches.mk 2 (Some "2021"); Matches.mk 1 (Some "2020") ].

(** ** A platform for running the model on ASCII text *)

Definition ascii_lower (c : ascii) : ascii :=
  let n := nat_of_ascii c in
  if (andb (Nat.leb 65 n) (Nat.leb n 90)) then ascii_of_nat (n + 32) else c.

Fixpoint lower_ascii (s : string) : string :=
  match s with
  | EmptyString => EmptyString
  | String c s' => String (ascii_lower c) (lower_ascii s')
  end.

Definition is_space (c : ascii) : bool :=
  let n := nat_of_ascii c in
  orb (Nat.eqb n 32) (orb (andb (Nat.leb 9 n) (Nat.leb n 13))
                            (andb (Nat.leb 28 n) (Nat.leb n 31))).

Fixpoint lstrip (s : string) : string :=
  match s with
  | EmptyString => EmptyString
  | String c s' => if is_space c then lstrip s' else s
  end.

Fixpoint rstrip (s : string) : string :=
  match s with
  | EmptyString => EmptyString
  | String c s' =>
      match rstrip s' with
      | EmptyString => if is_space c then EmptyString else String c EmptyString
      | t => String c t
      end
  end.

Definition strip_ascii (s : string) : string := rstrip (lstrip s).

(** A platform whose remote service answers every request with [reply]. *)
Definition answering (reply : string) : platform :=
  {| lower := lower_ascii;
     strip := strip_ascii;
     float_str := fun runs balls =>
       cat ["round(("; str_of_int runs; " / "; str_of_int balls; ") * 100, 2)"];
     chat_completion := fun _ => Return reply |}.


(** ** Orders of the results *)

(** [desc a b]: the entry [a] may stand before [b] in a ranking. *)
Definition desc (a b : string * Z) : Prop := snd b <= snd a.

(** The runs of [player] in [s], as [player_trend] sums them. *)
Definition season_runs (deliveries : list Delivery) (player s : string) : Z :=
  sum_i64
    (map batsman_runs
       (filter (has_key season s) (filter (has_key batter player) deliveries))).

(** ** Sample tables *)

Definition ball (m : Z) (b bo : string) (runs wicket : Z) (s : string)
  : Delivery :=
  {| match_id := m; batter := Some b; bowler := Some bo;
     batsman_runs := runs; is_wicket := wicket; season := Some s |}.

Definition sample : list Delivery :=
  [ ball 2 "Kohli" "Bumrah" 4 0 "2021";
    ball 1 "Kohli" "Bumrah" 6 0 "2020";
    ball 1 "Dhoni" "Malinga" 1 0 "2020";
    ball 1 "Dhoni" "Malinga" 0 1 "2020";
    ball 2 "Kohli" "Malinga" 0 1 "2021" ].

(** One batter with 30 runs in 2020 and 50 in 2021, the later season first
    in the table. *)
Definition two_seasons : list Delivery :=
  [ ball 7 "A" "X" 44 0 "2021";
    ball 3 "A" "X" 24 0 "2020";
    ball 3 "B" "X" 9 0 "2020";
    ball 7 "A" "Y" 6 0 "2021";
    ball 3 "A" "Y" 6 0 "2020" ].

(** Eleven batters with the run totals 11 down to 1. *)
Definition eleven_batters : list Delivery :=
  map (fun nr => ball 1 (fst nr) "Bumrah" (snd nr) 0 "2020")
    [("a", 11); ("b", 10); ("c", 9); ("d", 8); ("e", 7); ("f", 6);
     ("g", 5); ("h", 4); ("i", 3); ("j", 2); ("k", 1)].

(** * Properties *)

(** ** The order on strings *)

Lemma str_ltb_lt (a b : string) : str_ltb a b = true <-> str_lt a b.
Proof.
  unfold str_ltb, str_lt.
  destruct (str_compare a b); split; intro H; congruence.
Qed.

Lemma str_lt_irrefl (a : string) : ~ str_lt a a.
Proof. exact (StrictOrder_Irreflexive (R := String_as_OT.lt) a). Qed.

Lemma str_lt_trans (a b c : string) : str_lt a b -> str_lt b c -> str_lt a c.
Proof. exact (StrictOrder_Transitive (R := String_as_OT.lt) a b c). Qed.

Lemma str_lt_total (a b : string) : str_lt a b \/ a = b \/ str_lt b a.
Proof.
  destruct (String_as_OT.compare_spec a b) as [E | L | G]; auto.
Qed.

Lemma str_lt_neq (a b : string) : str_lt a b -> a <> b.
Proof. intros L E. subst. exact (str_lt_irrefl _ L). Qed.

(** ** Sorting *)

Lemma insert_asc_perm (x : string) (l : list string) :
  Permutation (insert_asc x l) (x :: l).
Proof.
  induction l as [| y t IH]; simpl.
  - apply Permutation_refl.
  - destruct (str_ltb y x).
    + eapply perm_trans; [apply perm_skip, IH | apply perm_swap].
    + apply Permutation_refl.
Qed.

Lemma sorted_perm (l : list string) : Permutation (sorted l) l.
Proof.
  induction l as [| x t IH]; simpl.
  - constructor.
  - eapply perm_trans; [apply insert_asc_perm | apply perm_skip, IH].
Qed.

Lemma sorted_In (l : list string) (x : string) : In x (sorted l) <-> In x l.
Proof.
  split; apply Permutation_in;
    [apply sorted_perm | apply Permutation_sym, sorted_perm].
Qed.

Lemma insert_asc_sorted (x : string) (l : list string) :
  StronglySorted str_lt l -> ~ In x l -> StronglySorted str_lt (insert_asc x l).
Proof.
  induction l as [| y t IH]; simpl; intros S N.
  - repeat constructor.
  - inversion S as [| ? ? St Ft]; subst.
    destruct (str_ltb y x) eqn:E.
    + apply str_ltb_lt in E. constructor.
      * apply IH; [assumption | tauto].
      * eapply Permutation_Forall;
          [apply Permutation_sym, insert_asc_perm | constructor; assumption].
    + assert (L : str_lt x y).
      { destruct (str_lt_total x y) as [L | [L | L]].
        - exact L.
        - subst. tauto.
        - apply str_ltb_lt in L. congruence. }
      constructor; [assumption |].
      constructor; [assumption |].
      eapply Forall_impl; [| exact Ft].
      intros z Lz. eapply str_lt_trans; eassumption.
Qed.

Lemma sorted_strict (l : list string) :
  NoDup l -> StronglySorted str_lt (sorted l).
Proof.
  induction 1 as [| x t N _ IH]; simpl.
  - constructor.
  - apply insert_asc_sorted; [assumption |].
    rewrite sorted_In. assumption.
Qed.

(** Two strictly ascending lists with the same elements are equal. *)
Lemma strictly_sorted_ext (l1 l2 : list string) :
  StronglySorted str_lt l1 -> StronglySorted str_lt l2 ->
  (forall x, In x l1 <-> In x l2) -> l1 = l2.
Proof.
  revert l2. induction l1 as [| a t1 IH]; intros l2 S1 S2 E.
  - destruct l2 as [| b t2]; [reflexivity |].
    exfalso. apply (proj2 (E b)). left. reflexivity.
  - destruct l2 as [| b t2].
    + exfalso. apply (proj1 (E a)). left. reflexivity.
    + inversion S1 as [| ? ? S1' F1]; subst.
      inversion S2 as [| ? ? S2' F2]; subst.
      rewrite Forall_forall in F1, F2.
      assert (a = b) as ->.
      { destruct (proj1 (E a) (or_introl eq_refl)) as [-> | Ia]; [reflexivity |].
        destruct (proj2 (E b) (or_introl eq_refl)) as [<- | Ib]; [reflexivity |].
        exfalso. apply (str_lt_irrefl a).
        eapply str_lt_trans; [apply F1, Ib | apply F2, Ia]. }
      f_equal. apply IH; try assumption.
      intro x. split; intro Hx.
      * destruct (proj1 (E x) (or_intror Hx)) as [<- | H]; [| exact H].
        exfalso. exact (str_lt_irrefl _ (F1 _ Hx)).
      * destruct (proj2 (E x) (or_intror Hx)) as [<- | H]; [| exact H].
        exfalso. exact (str_lt_irrefl _ (F2 _ Hx)).
Qed.

Lemma insert_desc_perm (x : string * Z) (l : list (string * Z)) :
  Permutation (insert_desc x l) (x :: l).
Proof.
  induction l as [| y t IH]; simpl.
  - apply Permutation_refl.
  - destruct (snd x <? snd y).
    + eapply perm_trans; [apply perm_skip, IH | apply perm_swap].
    + apply Permutation_refl.
Qed.

Lemma sort_desc_perm (s : list (string * Z)) : Permutation (sort_desc s) s.
Proof.
  induction s as [| x t IH]; simpl.
  - constructor.
  - eapply perm_trans; [apply insert_desc_perm | apply perm_skip, IH].
Qed.

Lemma insert_desc_sorted (x : string * Z) (l : list (string * Z)) :
  StronglySorted desc l -> StronglySorted desc (insert_desc x l).
Proof.
  induction l as [| y t IH]; simpl; intros S.
  - repeat constructor.
  - inversion S as [| ? ? St Ft]; subst.
    destruct (snd x <? snd y) eqn:E.
    + apply Z.ltb_lt in E. constructor.
      * apply IH. assumption.
      * eapply Permutation_Forall;
          [apply Permutation_sym, insert_desc_perm |].
        constructor; [unfold desc; lia | assumption].
    + apply Z.ltb_ge in E.
      constructor; [assumption |].
      constructor; [exact E |].
      eapply Forall_impl; [| exact Ft].
      unfold desc. intros z Lz. lia.
Qed.

Lemma sort_desc_sorted (s : list (string * Z)) : StronglySorted desc (sort_desc s).
Proof.
  induction s as [| x t IH]; simpl.
  - constructor.
  - apply insert_desc_sorted, IH.
Qed.

Lemma firstn_sorted {A : Type} (R : A -> A -> Prop) (n : nat) (l : list A) :
  StronglySorted R l -> StronglySorted R (firstn n l).
Proof.
  revert l. induction n as [| n IH]; intros l S; simpl.
  - constructor.
  - destruct S as [| a l S F]; constructor.
    + apply IH, S.
    + rewrite Forall_forall in *. intros x Hx.
      apply F. rewrite <- (firstn_skipn n l).
      apply in_or_app. left. exact Hx.
Qed.

(** ** Distinct values and group keys *)

Lemma dropna_In {A : Type} (l : list (option A)) (a : A) :
  In a (dropna l) <-> In (Some a) l.
Proof.
  induction l as [| [b |] t IH]; simpl.
  - tauto.
  - rewrite IH. split; intros [H | H]; auto; left; congruence.
  - rewrite IH. split; [auto | intros [H | H]; [discriminate | exact H]].
Qed.

Section Unique.

Context {A : Type} (eqb : A -> A -> bool).
Hypothesis eqb_spec : forall a b, eqb a b = true <-> a = b.

Lemma unique_In (l : list A) (a : A) : In a (unique eqb l) <-> In a l.
Proof.
  induction l as [| x t IH]; simpl.
  - tauto.
  - rewrite filter_In, IH. split.
    + intros [H | [H _]]; auto.
    + intros [H | H]; [auto |].
      destruct (eqb a x) eqn:E.
      * left. symmetry. apply eqb_spec, E.
      * right. split; [exact H | reflexivity].
Qed.

Lemma unique_NoDup (l : list A) : NoDup (unique eqb l).
Proof.
  induction l as [| x t IH]; simpl.
  - constructor.
  - constructor.
    + rewrite filter_In. intros [_ H].
      rewrite (proj2 (eqb_spec x x) eq_refl) in H. discriminate.
    + apply NoDup_filter, IH.
Qed.

End Unique.

Lemma has_key_true (key : Delivery -> option string) (k : string) (r : Delivery) :
  has_key key k r = true <-> key r = Some k.
Proof.
  unfold has_key. destruct (key r) as [k' |].
  - rewrite String.eqb_eq. split; congruence.
  - split; discriminate.
Qed.

Lemma group_keys_In (key : Delivery -> option string) (df : list Delivery)
  (k : string) :
  In k (group_keys key df) <-> exists r, In r df /\ key r = Some k.
Proof.
  unfold group_keys.
  rewrite sorted_In, (unique_In _ String.eqb_eq), dropna_In, in_map_iff.
  split; intros [r H]; exists r; tauto.
Qed.

Lemma group_keys_sorted (key : Delivery -> option string) (df : list Delivery) :
  StronglySorted str_lt (group_keys key df).
Proof. apply sorted_strict, unique_NoDup, String.eqb_eq. Qed.

Lemma strictly_sorted_NoDup (l : list string) :
  StronglySorted str_lt l -> NoDup l.
Proof.
  induction 1 as [| a l S IH F]; constructor; [| exact IH].
  intro I. rewrite Forall_forall in F. exact (str_lt_irrefl _ (F _ I)).
Qed.

Lemma group_keys_NoDup (key : Delivery -> option string) (df : list Delivery) :
  NoDup (group_keys key df).
Proof. apply strictly_sorted_NoDup, group_keys_sorted. Qed.

Lemma group_sum_keys (col : Delivery -> Z) (key : Delivery -> option string)
  (df : list Delivery) :
  map fst (group_sum col (groupby key df)) = group_keys key df.
Proof.
  unfold group_sum, groupby. rewrite !map_map. simpl. apply map_id.
Qed.

Lemma group_size_keys (key : Delivery -> option string) (df : list Delivery) :
  map fst (group_size (groupby key df)) = group_keys key df.
Proof.
  unfold group_size, groupby. rewrite !map_map. simpl. apply map_id.
Qed.

Lemma group_sum_In (col : Delivery -> Z) (key : Delivery -> option string)
  (df : list Delivery) (e : string * Z) :
  In e (group_sum col (groupby key df)) <->
  In (fst e) (group_keys key df) /\
  snd e = sum_i64 (map col (filter (has_key key (fst e)) df)).
Proof.
  unfold group_sum, groupby. rewrite map_map. simpl. rewrite in_map_iff.
  split.
  - intros [k [<- I]]. simpl. auto.
  - intros [I E]. exists (fst e). split; [| exact I].
    destruct e as [k v]. simpl in *. congruence.
Qed.

Lemma group_size_In (key : Delivery -> option string) (df : list Delivery)
  (e : string * Z) :
  In e (group_size (groupby key df)) <->
  In (fst e) (group_keys key df) /\
  snd e = Z.of_nat (List.length (filter (has_key key (fst e)) df)).
Proof.
  unfold group_size, groupby. rewrite map_map. simpl. rewrite in_map_iff.
  split.
  - intros [k [<- I]]. simpl. auto.
  - intros [I E]. exists (fst e). split; [| exact I].
    destruct e as [k v]. simpl in *. congruence.
Qed.

(** ** Sums *)

Lemma wrap64_add (a b : Z) : wrap64 (wrap64 a + b) = wrap64 (a + b).
Proof.
  unfold wrap64.
  replace ((a + 2 ^ 63) mod 2 ^ 64 - 2 ^ 63 + b + 2 ^ 63)
    with ((a + 2 ^ 63) mod 2 ^ 64 + b) by lia.
  rewrite Z.add_mod_idemp_l by lia.
  f_equal. f_equal. lia.
Qed.

Lemma wrap64_small (z : Z) : - 2 ^ 63 <= z < 2 ^ 63 -> wrap64 z = z.
Proof. intro H. unfold wrap64. rewrite Z.mod_small; lia. Qed.

Lemma wrap64_le (z : Z) : 0 <= z -> wrap64 z <= z.
Proof.
  intro H. unfold wrap64.
  assert (M : (z + 2 ^ 63) mod 2 ^ 64 <= z + 2 ^ 63) by (apply Z.mod_le; lia).
  lia.
Qed.

Lemma fold_add64 (l : list Z) (a : Z) :
  fold_left add64 l (wrap64 a) = wrap64 (a + total l).
Proof.
  revert a. induction l as [| x t IH]; intro a; simpl.
  - f_equal. lia.
  - unfold add64 at 2. rewrite wrap64_add, IH. f_equal. lia.
Qed.

Lemma sum_i64_total (l : list Z) : sum_i64 l = wrap64 (total l).
Proof.
  unfold sum_i64. change 0 with (wrap64 0) at 1. apply fold_add64.
Qed.

Lemma total_nonneg (l : list Z) : Forall (fun z => 0 <= z) l -> 0 <= total l.
Proof. induction 1; simpl; lia. Qed.

Lemma total_app (l1 l2 : list Z) : total (l1 ++ l2) = total l1 + total l2.
Proof. induction l1; simpl; lia. Qed.

Lemma total_perm (l1 l2 : list Z) : Permutation l1 l2 -> total l1 = total l2.
Proof. induction 1; simpl; lia. Qed.

Lemma total_firstn (n : nat) (l : list Z) :
  Forall (fun z => 0 <= z) l -> total (firstn n l) <= total l.
Proof.
  intro F. rewrite <- (firstn_skipn n l) at 2. rewrite total_app.
  assert (0 <= total (skipn n l)); [| lia].
  apply total_nonneg. rewrite Forall_forall in *. intros x Hx. apply F.
  rewrite <- (firstn_skipn n l). apply in_or_app. right. exact Hx.
Qed.

Lemma total_map_le {A : Type} (f g : A -> Z) (l : list A) :
  (forall a, In a l -> f a <= g a) -> total (map f l) <= total (map g l).
Proof.
  induction l as [| x t IH]; simpl; intro H.
  - lia.
  - assert (f x <= g x) by (apply H; auto).
    assert (total (map f t) <= total (map g t)) by (apply IH; auto).
    lia.
Qed.

(** The rows of one key, summed over distinct keys, never exceed the whole
    column when its entries are not negative. *)
Lemma total_groups_le (key : Delivery -> option string) (col : Delivery -> Z)
  (df : list Delivery) (ks : list string) :
  NoDup ks -> Forall (fun r => 0 <= col r) df ->
  total (map (fun k => total (map col (filter (has_key key k) df))) ks)
  <= total (map col df).
Proof.
  intros N F. induction F as [| r t Hr F IH].
  - simpl. clear N. induction ks; simpl; lia.
  - change (total (map col (r :: t))) with (col r + total (map col t)).
    assert (S : total (map (fun k =>
                 total (map col (filter (has_key key k) (r :: t)))) ks)
              <= col r
                 + total (map (fun k =>
                     total (map col (filter (has_key key k) t))) ks)).
    { clear IH F. induction N as [| k ks Nk N IHk]; simpl.
      - lia.
      - destruct (has_key key k r) eqn:E; simpl.
        + apply has_key_true in E.
          assert (Z0 : total (map (fun k0 =>
                     total (map col (filter (has_key key k0) (r :: t)))) ks)
                  = total (map (fun k0 =>
                     total (map col (filter (has_key key k0) t))) ks)).
          { f_equal. apply map_ext_in. intros k0 I0. simpl.
            destruct (has_key key k0 r) eqn:E0; [| reflexivity].
            apply has_key_true in E0. exfalso. apply Nk.
            congruence. }
          simpl in Z0, IHk. lia.
        + simpl in IHk. lia. }
    lia.
Qed.

Lemma firstn_In {A : Type} (n : nat) (l : list A) (x : A) :
  In x (firstn n l) -> In x l.
Proof.
  intro H. rewrite <- (firstn_skipn n l). apply in_or_app. left. exact H.
Qed.

Lemma nlargest_In (n : nat) (s : list (string * Z)) (e : string * Z) :
  In e (nlargest n s) -> In e s.
Proof.
  intro H. apply firstn_In in H.
  eapply Permutation_in; [apply sort_desc_perm | exact H].
Qed.

Lemma nlargest_keys_NoDup (n : nat) (s : list (string * Z)) :
  NoDup (map fst s) -> NoDup (map fst (nlargest n s)).
Proof.
  intro N. unfold nlargest. rewrite <- firstn_map.
  assert (D : NoDup (map fst (sort_desc s))).
  { eapply Permutation_NoDup; [| exact N].
    apply Permutation_map, Permutation_sym, sort_desc_perm. }
  revert D. generalize (map fst (sort_desc s)). intros l D.
  rewrite <- (firstn_skipn n l) in D.
  exact (NoDup_app_remove_r _ _ D).
Qed.

Lemma filter_filter {A : Type} (f g : A -> bool) (l : list A) :
  filter f (filter g l) = filter (fun x => andb (g x) (f x)) l.
Proof.
  induction l as [| x t IH]; simpl; [reflexivity |].
  destruct (g x); simpl; [destruct (f x) |]; rewrite IH; reflexivity.
Qed.

(** ** The aggregations *)

Lemma merge_left_rows (ds : list Csv.row) (ms : list Matches.row)
  (r : Delivery) :
  In r (merge_left ds ms) ->
  exists c, In c ds /\ exists s, r = with_season c s.
Proof.
  unfold merge_left. rewrite in_flat_map. intros [c [I H]].
  exists c. split; [exact I |].
  destruct (filter (fun m => Matches.id m =? Csv.match_id c) ms) as [| m t].
  - destruct H as [<- | []]. exists None. reflexivity.
  - apply in_map_iff in H. destruct H as [m' [<- _]].
    exists (Matches.season m'). reflexivity.
Qed.

Lemma merge_left_keeps (ds : list Csv.row) (ms : list Matches.row)
  (c : Csv.row) :
  In c ds -> exists s, In (with_season c s) (merge_left ds ms).
Proof.
  intro I. unfold merge_left.
  destruct (filter (fun m => Matches.id m =? Csv.match_id c) ms)
    as [| m t] eqn:E.
  - exists None. apply in_flat_map. exists c. split; [exact I |].
    rewrite E. left. reflexivity.
  - exists (Matches.season m). apply in_flat_map. exists c.
    split; [exact I |]. rewrite E. left. reflexivity.
Qed.

(** C10: the player list of the selection controls is strictly ascending,
    hence free of duplicates, and holds exactly the non-null batter names of
    the delivery table; the join with the match table neither adds nor
    loses a name. *)
Theorem players_distinct_sorted (deliveries : list Delivery) :
  StronglySorted str_lt (players deliveries) /\
  NoDup (players deliveries) /\
  (forall p, In p (players deliveries) <->
             exists r, In r deliveries /\ batter r = Some p) /\
  (forall ds ms p, In p (players (merge_left ds ms)) <->
                   exists c, In c ds /\ Csv.batter c = Some p).
Proof.
  split; [apply group_keys_sorted |].
  split; [apply group_keys_NoDup |].
  split; [intro p; apply group_keys_In |].
  intros ds ms p. unfold players.
  rewrite (group_keys_In batter (merge_left ds ms) p). split.
  - intros [r [I B]]. apply merge_left_rows in I.
    destruct I as [c [I [s ->]]]. exists c. auto.
  - intros [c [I B]]. destruct (merge_left_keeps ds ms c I) as [s H].
    exists (with_season c s). auto.
Qed.

(** C5: [top_run_scorers] returns at most 10 entries, one per batter, each
    with the summed [batsman_runs] of that batter, in descending order of
    the sums; when no delivery has negative runs, the returned totals add up
    to at most the runs of the whole table. *)
Theorem top_run_scorers_bounded (deliveries : list Delivery) :
  (List.length (top_run_scorers deliveries) <= 10)%nat /\
  StronglySorted desc (top_run_scorers deliveries) /\
  NoDup (map fst (top_run_scorers deliveries)) /\
  (forall e, In e (top_run_scorers deliveries) ->
     snd e = sum_i64 (map batsman_runs
                        (filter (has_key batter (fst e)) deliveries))) /\
  (Forall (fun r => 0 <= batsman_runs r) deliveries ->
   total (map snd (top_run_scorers deliveries))
   <= total (map batsman_runs deliveries)).
Proof.
  unfold top_run_scorers.
  set (S := group_sum batsman_runs (groupby batter deliveries)).
  split; [apply firstn_le_length |].
  split; [apply firstn_sorted, sort_desc_sorted |].
  split.
  { apply nlargest_keys_NoDup. unfold S. rewrite group_sum_keys.
    apply group_keys_NoDup. }
  split.
  { intros e I. apply nlargest_In in I. apply group_sum_In in I. tauto. }
  intro F.
  set (g := fun e : string * Z =>
              total (map batsman_runs
                       (filter (has_key batter (fst e)) deliveries))).
  assert (G0 : forall e, 0 <= g e).
  { intro e. apply total_nonneg. rewrite Forall_forall in *.
    intros z Hz. apply in_map_iff in Hz. destruct Hz as [r [<- Hr]].
    apply filter_In in Hr. apply F, Hr. }
  assert (G1 : forall e, In e S -> snd e <= g e).
  { intros e I. apply group_sum_In in I. destruct I as [_ ->].
    rewrite sum_i64_total. apply wrap64_le, G0. }
  eapply Z.le_trans.
  { apply (total_map_le snd g). intros e I. apply G1.
    eapply nlargest_In, I. }
  unfold nlargest. rewrite <- firstn_map.
  eapply Z.le_trans.
  { apply total_firstn. rewrite Forall_forall. intros z Hz.
    apply in_map_iff in Hz. destruct Hz as [e [<- _]]. apply G0. }
  rewrite (total_perm _ (map g S))
    by (apply Permutation_map, sort_desc_perm).
  unfold S, group_sum, groupby. rewrite !map_map. unfold g. simpl.
  apply total_groups_le; [apply group_keys_NoDup | exact F].
Qed.

Example top_run_scorers_three_rows :
  top_run_scorers
    [ ball 1 "A" "X" 4 0 "2020"; ball 1 "A" "X" 6 0 "2020";
      ball 1 "B" "X" 1 0 "2020" ]
  = [("A", 10); ("B", 1)].
Proof. reflexivity. Qed.

Lemma top_run_scorers_bounded_witness :
  Forall (fun r => 0 <= batsman_runs r) sample /\
  total (map snd (top_run_scorers sample)) <= total (map batsman_runs sample).
Proof.
  assert (F : Forall (fun r => 0 <= batsman_runs r) sample).
  { unfold sample. repeat constructor; simpl; lia. }
  split; [exact F |].
  apply (top_run_scorers_bounded sample). exact F.
Defined.

(** C6: a delivery whose [is_wicket] is not 1 never contributes: dropping it
    from the table leaves [top_wicket_takers] as it was, and the count shown
    for a bowler is the number of that bowler's deliveries with
    [is_wicket] equal to 1. *)
Theorem top_wicket_takers_only_wickets :
  (forall d1 r d2, is_wicket r <> 1 ->
     top_wicket_takers (d1 ++ r :: d2) = top_wicket_takers (d1 ++ d2)) /\
  (forall deliveries e, In e (top_wicket_takers deliveries) ->
     snd e = Z.of_nat (List.length
               (filter (fun r => andb (is_wicket r =? 1)
                                      (has_key bowler (fst e) r))
                       deliveries))).
Proof.
  split.
  - intros d1 r d2 H. unfold top_wicket_takers.
    rewrite !filter_app. simpl.
    destruct (is_wicket r =? 1) eqn:E; [| reflexivity].
    apply Z.eqb_eq in E. contradiction.
  - intros deliveries e I. unfold top_wicket_takers in I.
    apply nlargest_In in I. apply group_size_In in I.
    destruct I as [_ ->]. rewrite filter_filter. reflexivity.
Qed.

Lemma top_wicket_takers_only_wickets_witness :
  top_wicket_takers (ball 1 "Dhoni" "Malinga" 4 0 "2020" :: sample)
  = top_wicket_takers sample.
Proof.
  apply (proj1 top_wicket_takers_only_wickets nil
           (ball 1 "Dhoni" "Malinga" 4 0 "2020") sample).
  simpl. lia.
Defined.

Lemma sum_i64_nonzero (l : list Z) : sum_i64 l <> 0 -> l <> [].
Proof. intros H E. subst. apply H. reflexivity. Qed.

Lemma season_runs_row (deliveries : list Delivery) (p s : string) :
  season_runs deliveries p s <> 0 ->
  exists r, In r (filter (has_key batter p) deliveries) /\ season r = Some s.
Proof.
  unfold season_runs. intro H. apply sum_i64_nonzero in H.
  destruct (filter (has_key season s) (filter (has_key batter p) deliveries))
    as [| r t] eqn:E; [contradiction H; reflexivity |].
  assert (I : In r (filter (has_key season s)
                      (filter (has_key batter p) deliveries)))
    by (rewrite E; left; reflexivity).
  apply filter_In in I. destruct I as [I K].
  exists r. split; [exact I | apply has_key_true, K].
Qed.

(** C8: [player_trend] has one entry per season in which the player has a
    delivery, in strictly ascending order of the seasons, each with the sum
    of the player's runs in that season; a player whose seasons are 2020 and
    2021, with 30 and 50 runs, gets [("2020", 30); ("2021", 50)], whatever
    the order of the rows. *)
Theorem player_trend_by_season (deliveries : list Delivery) (p : string) :
  StronglySorted str_lt (map fst (player_trend deliveries p)) /\
  (forall e, In e (player_trend deliveries p) <->
     (exists r, In r deliveries /\ batter r = Some p /\
                season r = Some (fst e)) /\
     snd e = season_runs deliveries p (fst e)) /\
  ((forall r, In r deliveries -> batter r = Some p ->
      season r = Some "2020" \/ season r = Some "2021" \/ season r = None) ->
   season_runs deliveries p "2020" = 30 ->
   season_runs deliveries p "2021" = 50 ->
   player_trend deliveries p = [("2020", 30); ("2021", 50)]) /\
  player_trend two_seasons "A" = [("2020", 30); ("2021", 50)].
Proof.
  unfold player_trend.
  set (df := filter (has_key batter p) deliveries).
  split; [rewrite group_sum_keys; apply group_keys_sorted |].
  split.
  { intro e. rewrite group_sum_In, group_keys_In. unfold season_runs.
    fold df. split.
    - intros [[r [I K]] E]. split; [| exact E].
      exists r. apply filter_In in I. destruct I as [I B].
      apply has_key_true in B. auto.
    - intros [[r [I [B K]]] E]. split; [| exact E].
      exists r. split; [| exact K].
      apply filter_In. split; [exact I | apply has_key_true, B]. }
  split; [| reflexivity].
  intros Hs H20 H21.
  assert (K : group_keys season df = ["2020"; "2021"]).
  { apply strictly_sorted_ext.
    - apply group_keys_sorted.
    - repeat constructor.
    - intro x. rewrite group_keys_In. split.
      + intros [r [I S]]. apply filter_In in I. destruct I as [I B].
        apply has_key_true in B.
        destruct (Hs r I B) as [E | [E | E]]; rewrite E in S;
          [left | right; left | discriminate]; congruence.
      + intros [<- | [<- | []]]; apply season_runs_row; lia. }
  unfold group_sum, groupby. rewrite K. simpl.
  fold df. unfold season_runs in H20, H21. fold df in H20, H21.
  rewrite H20, H21. reflexivity.
Qed.

Lemma player_trend_by_season_witness :
  player_trend (rev two_seasons) "A" = [("2020", 30); ("2021", 50)].
Proof.
  apply (proj1 (proj2 (proj2 (player_trend_by_season (rev two_seasons) "A")))).
  - simpl. intros r H B.
    repeat (destruct H as [<- | H]; [simpl; auto |]).
    contradiction.
  - reflexivity.
  - reflexivity.
Defined.

Lemma filter_none {A : Type} (f : A -> bool) (l : list A) :
  (forall a, In a l -> f a = false) -> filter f l = [].
Proof.
  induction l as [| x t IH]; simpl; intro H; [reflexivity |].
  rewrite (H x) by auto. apply IH. auto.
Qed.

Lemma player_stats_no_rows (deliveries : list Delivery) (p : string) :
  filter (has_key batter p) deliveries = [] ->
  player_stats deliveries p = Raise ValueError.
Proof. intro E. unfold player_stats. rewrite E. reflexivity. Qed.

(** C1: for a player name outside the loaded batter set, [player_stats]
    does not return empty aggregates: the best-season lookup takes
    [idxmax] of an empty series and the call raises [ValueError]. *)
Theorem player_stats_unknown_raises (deliveries : list Delivery) (p : string) :
  ~ In p (players deliveries) ->
  player_stats deliveries p = Raise ValueError.
Proof.
  intro N. apply player_stats_no_rows, filter_none.
  intros r I. destruct (has_key batter p r) eqn:E; [| reflexivity].
  exfalso. apply N. unfold players.
  apply (group_keys_In batter deliveries p).
  exists r. split; [exact I | apply has_key_true, E].
Qed.

Lemma player_stats_unknown_raises_witness :
  ~ In "Tendulkar" (players sample) /\
  player_stats sample "Tendulkar" = Raise ValueError.
Proof.
  assert (N : ~ In "Tendulkar" (players sample)).
  { simpl. intros [H | [H | []]]; discriminate H. }
  split; [exact N | apply (player_stats_unknown_raises sample), N].
Defined.

(** C7: with zero balls faced the strike-rate expression is guarded and
    evaluates to the integer 0, so no division by zero happens; the call
    still returns no strike rate, because the best-season lookup that
    follows raises [ValueError]. *)
Theorem player_stats_zero_balls (deliveries : list Delivery) (p : string) :
  List.length (filter (has_key batter p) deliveries) = 0%nat ->
  (forall runs, strike_rate_of runs 0 = SrZero) /\
  player_stats deliveries p = Raise ValueError.
Proof.
  intro L. split; [reflexivity |].
  apply player_stats_no_rows, length_zero_iff_nil, L.
Qed.

Lemma player_stats_zero_balls_witness :
  player_stats sample "Gayle" = Raise ValueError.
Proof.
  apply (proj2 (player_stats_zero_balls sample "Gayle" eq_refl)).
Defined.

(** ** The router and the comparison *)

(** C4: a question whose lower-cased text holds a run keyword and a wicket
    keyword is answered by the run-scorer branch, and a chart that comes
    back is the chart of the run scorers. *)
Theorem ask_ai_run_first (pf : platform) (deliveries : list Delivery)
  (question : string) :
  any_in run_keywords (lower pf question) = true ->
  any_in wicket_keywords (lower pf question) = true ->
  ask_ai pf deliveries question = run_scorer_branch pf deliveries question /\
  (forall ans fig third,
     ask_ai pf deliveries question = Return (ans, fig, third) ->
     exists f, fig = Some f /\ fig_x f = "batter" /\
               fig_y f = "batsman_runs" /\
               fig_data f = top_run_scorers deliveries).
Proof.
  intros R _. unfold ask_ai. rewrite R. split; [reflexivity |].
  unfold run_scorer_branch. intros ans fig third.
  destruct (iloc0 (top_run_scorers deliveries)) as [leader | e]; simpl;
    [| discriminate].
  match goal with |- context [llm_answer pf ?f ?q] =>
    destruct (llm_answer pf f q) as [a | e] end; simpl; [| discriminate].
  intro H. injection H as _ <- _. eexists. repeat split.
Qed.

Lemma ask_ai_run_first_witness :
  ask_ai (answering "ok") sample "Most RUNS or most wickets?"
  = run_scorer_branch (answering "ok") sample "Most RUNS or most wickets?".
Proof.
  apply (ask_ai_run_first (answering "ok") sample "Most RUNS or most wickets?");
    reflexivity.
Defined.

(** C3 as the spec words it fails: for the matched question "runs" the third
    element of the triple is the empty string, not the question. *)
Lemma ask_ai_does_not_echo :
  any_in run_keywords (lower (answering "ok") "runs") = true /\
  (exists ans fig,
     ask_ai (answering "ok") sample "runs" = Return (ans, Some fig, EmptyString)) /\
  ~ (exists ans fig,
       ask_ai (answering "ok") sample "runs" = Return (ans, fig, "runs")).
Proof.
  split; [reflexivity |]. split.
  - eexists. eexists. reflexivity.
  - intros [ans [fig H]]. vm_compute in H. discriminate H.
Qed.

(** C3, amended: whatever [ask_ai] returns has the empty string as its third
    element, and has a chart exactly when the lower-cased question holds a
    run or a wicket keyword; and [ask_ai] does return when the remote call
    answers and the ranking it needs is not empty. *)
Theorem ask_ai_third_is_empty (pf : platform) (deliveries : list Delivery)
  (question : string) :
  (forall r, ask_ai pf deliveries question = Return r ->
     snd r = EmptyString /\
     (snd (fst r) <> None <->
      any_in run_keywords (lower pf question) = true \/
      any_in wicket_keywords (lower pf question) = true)) /\
  ((forall req, returns (chat_completion pf req) = true) ->
   top_run_scorers deliveries <> [] ->
   top_wicket_takers deliveries <> [] ->
   returns (ask_ai pf deliveries question) = true).
Proof.
  unfold ask_ai, run_scorer_branch, wicket_taker_branch, fallback_branch,
    llm_answer.
  split.
  - intro r.
    destruct (any_in run_keywords (lower pf question)) eqn:R;
      [| destruct (any_in wicket_keywords (lower pf question)) eqn:W].
    + destruct (iloc0 (top_run_scorers deliveries)) as [leader | e]; simpl;
        [| discriminate].
      destruct (chat_completion pf _) as [a | e]; simpl; [| discriminate].
      intro H. injection H as <-. simpl. split; [reflexivity |].
      split; [auto | discriminate].
    + destruct (iloc0 (top_wicket_takers deliveries)) as [leader | e]; simpl;
        [| discriminate].
      destruct (chat_completion pf _) as [a | e]; simpl; [| discriminate].
      intro H. injection H as <-. simpl. split; [reflexivity |].
      split; [auto | discriminate].
    + destruct (chat_completion pf _) as [a | e]; simpl; [| discriminate].
      intro H. injection H as <-. simpl. split; [reflexivity |].
      split; [congruence | intros [H | H]; discriminate H].
  - intros C Hr Hw.
    assert (L : forall facts k,
               returns (bind (bind (chat_completion pf
                                      (request_of (prompt_of facts question)))
                                (fun content => Return (strip pf content)))
                          (fun ans => Return (k ans)
                             : result (string * option Figure * string)))
               = true).
    { intros facts k.
      specialize (C (request_of (prompt_of facts question))).
      destruct (chat_completion pf _); [reflexivity | discriminate C]. }
    destruct (any_in run_keywords (lower pf question));
      [| destruct (any_in wicket_keywords (lower pf question))].
    + destruct (top_run_scorers deliveries) as [| leader t];
        [contradiction Hr; reflexivity |]. simpl. apply L.
    + destruct (top_wicket_takers deliveries) as [| leader t];
        [contradiction Hw; reflexivity |]. simpl. apply L.
    + apply L.
Qed.

Lemma ask_ai_third_is_empty_witness :
  returns (ask_ai (answering "ok") sample "Who took most wickets?") = true.
Proof.
  apply (proj2 (ask_ai_third_is_empty (answering "ok") sample
                  "Who took most wickets?")).
  - intro req. reflexivity.
  - discriminate.
  - discriminate.
Defined.




(** * Further properties of the program *)

(** ** The join *)

Lemma filter_unique_id (ms : list Matches.row) (k : Z) :
  NoDup (map Matches.id ms) ->
  filter (fun m => Matches.id m =? k) ms
  = match find (fun m => Matches.id m =? k) ms with
    | Some m => [m]
    | None => []
    end.
Proof.
  induction ms as [| m t IH]; simpl; intro N; [reflexivity |].
  inversion N as [| ? ? Nm Nt]; subst.
  destruct (Matches.id m =? k) eqn:E.
  - f_equal. apply filter_none. intros m' I.
    apply Z.eqb_eq in E. apply Z.eqb_neq. intro E'.
    apply Nm. rewrite E, <- E'. apply in_map, I.
  - apply IH, Nt.
Qed.

(** X1: when no match id occurs twice in the match table, the join is a
    lookup: the merged table has exactly one row per delivery, in the order
    of the CSV file, each with the season the match table gives its match id
    (null when the id is missing), and the runs column is the CSV column. *)
Theorem merge_left_unique_ids (ds : list Csv.row) (ms : list Matches.row) :
  NoDup (map Matches.id ms) ->
  merge_left ds ms
  = map (fun c => with_season c (lookup_season ms (Csv.match_id c))) ds /\
  map batsman_runs (merge_left ds ms) = map Csv.batsman_runs ds.
Proof.
  intro N.
  assert (E : merge_left ds ms
              = map (fun c => with_season c
                                (lookup_season ms (Csv.match_id c))) ds).
  { unfold merge_left. induction ds as [| c t IH]; [reflexivity |].
    cbn [flat_map]. rewrite map_cons.
    rewrite IH. rewrite (filter_unique_id ms (Csv.match_id c) N).
    unfold lookup_season.
    destruct (find (fun m => Matches.id m =? Csv.match_id c) ms);
      reflexivity. }
  split; [exact E |].
  rewrite E, map_map. reflexivity.
Qed.

Lemma merge_left_unique_ids_witness :
  map season (merge_left sample_csv sample_matches)
  = [Some "2020"; Some "2021"; None].
Proof.
  rewrite (proj1 (merge_left_unique_ids sample_csv sample_matches
                    ltac:(simpl; repeat constructor; simpl; intuition lia))).
  reflexivity.
Defined.

(** X2: whatever the match table, the join loses no delivery and invents
    no season: the merged table is at least as long as the CSV table, each
    of its rows is a CSV row with a season that is null or that of a match
    row with the delivery's match id, and a delivery whose match id is in
    no match row is kept with a null season. *)
Theorem merge_left_provenance (ds : list Csv.row) (ms : list Matches.row) :
  (List.length ds <= List.length (merge_left ds ms))%nat /\
  (forall r, In r (merge_left ds ms) ->
     exists c, In c ds /\ r = with_season c (season r) /\
       (season r = None \/
        exists m, In m ms /\ Matches.id m = match_id r /\
                  season r = Matches.season m)) /\
  (forall c, In c ds ->
     (forall m, In m ms -> Matches.id m <> Csv.match_id c) ->
     In (with_season c None) (merge_left ds ms)).
Proof.
  split; [| split].
  - unfold merge_left. induction ds as [| c t IH]; [simpl; lia |].
    cbn [flat_map]. rewrite length_app. cbn [List.length].
    destruct (filter (fun m => Matches.id m =? Csv.match_id c) ms);
      [| rewrite length_map]; cbn [List.length]; lia.
  - intros r I. unfold merge_left in I. apply in_flat_map in I.
    destruct I as [c [Ic H]]. exists c. split; [exact Ic |].
    destruct (filter (fun m => Matches.id m =? Csv.match_id c) ms)
      as [| m t] eqn:E.
    + destruct H as [<- | []]. simpl. auto.
    + apply in_map_iff in H. destruct H as [m' [<- Im]].
      split; [reflexivity |]. right. exists m'.
      rewrite <- E in Im. apply filter_In in Im. destruct Im as [Im K].
      apply Z.eqb_eq in K. simpl. auto.
  - intros c Ic H. unfold merge_left. apply in_flat_map.
    exists c. split; [exact Ic |].
    rewrite filter_none; [left; reflexivity |].
    intros m Im. apply Z.eqb_neq, H, Im.
Qed.

Lemma merge_left_provenance_witness :
  In (with_season (Csv.mk 5 (Some "Gill") None 1 0) None)
     (merge_left sample_csv sample_matches).
Proof.
  apply (proj2 (proj2 (merge_left_provenance sample_csv sample_matches))).
  - simpl. auto.
  - simpl. intros m [<- | [<- | []]]; simpl; lia.
Defined.

(** ** The rankings *)

Lemma sorted_app_rel {A : Type} (R : A -> A -> Prop) (l1 l2 : list A) :
  StronglySorted R (l1 ++ l2) ->
  forall a b, In a l1 -> In b l2 -> R a b.
Proof.
  induction l1 as [| x t IH]; simpl; intros S a b Ia Ib; [contradiction |].
  inversion S as [| ? ? S' F]; subst.
  destruct Ia as [<- | Ia].
  - rewrite Forall_forall in F. apply F, in_or_app. right. exact Ib.
  - apply IH; assumption.
Qed.

Lemma nlargest_cut (n : nat) (s : list (string * Z)) (e e' : string * Z) :
  In e (nlargest n s) -> In e' s -> ~ In e' (nlargest n s) ->
  snd e' <= snd e.
Proof.
  unfold nlargest. intros I I' N.
  assert (K : In e' (skipn n (sort_desc s))).
  { assert (L : In e' (sort_desc s))
      by (eapply Permutation_in;
          [apply Permutation_sym, sort_desc_perm | exact I']).
    rewrite <- (firstn_skipn n (sort_desc s)) in L.
    apply in_app_or in L. tauto. }
  apply (sorted_app_rel desc (firstn n (sort_desc s)) (skipn n (sort_desc s)));
    [rewrite firstn_skipn; apply sort_desc_sorted | exact I | exact K].
Qed.

Lemma nlargest_head (n : nat) (s : list (string * Z)) (e : string * Z)
  (t : list (string * Z)) :
  nlargest n s = e :: t -> forall e', In e' s -> snd e' <= snd e.
Proof.
  unfold nlargest. intros H e' I.
  assert (S := sort_desc_sorted s).
  assert (L : In e' (sort_desc s))
    by (eapply Permutation_in;
        [apply Permutation_sym, sort_desc_perm | exact I]).
  destruct (sort_desc s) as [| x l]; [contradiction |].
  destruct n as [| n]; [discriminate |]. simpl in H.
  injection H as -> _.
  inversion S as [| ? ? _ F]; subst. rewrite Forall_forall in F.
  destruct L as [<- | L]; [lia | apply F, L].
Qed.

Lemma career_entry (deliveries : list Delivery) (p : string) :
  In p (players deliveries) ->
  In (p, career_runs deliveries p)
     (group_sum batsman_runs (groupby batter deliveries)).
Proof.
  intro I. apply group_sum_In. simpl. split; [exact I | reflexivity].
Qed.

(** X3: the run ranking really holds the largest totals: a batter of the
    table who is not among the returned entries has a run total that is not
    above the total of any returned entry. *)
Theorem top_run_scorers_are_largest (deliveries : list Delivery)
  (e : string * Z) (p : string) :
  In e (top_run_scorers deliveries) ->
  In p (players deliveries) ->
  ~ In p (map fst (top_run_scorers deliveries)) ->
  career_runs deliveries p <= snd e.
Proof.
  intros I P N. unfold top_run_scorers in *.
  apply (nlargest_cut 10 _ e (p, career_runs deliveries p) I).
  - apply career_entry, P.
  - intro H. apply N. apply (in_map fst) in H. exact H.
Qed.

(** X4: the run ranking has min(10, number of batters) entries, all of them
    batters of the player list, and it holds every batter when there are at
    most ten. *)
Theorem top_run_scorers_size (deliveries : list Delivery) :
  List.length (top_run_scorers deliveries)
  = Nat.min 10 (List.length (players deliveries)) /\
  (forall e, In e (top_run_scorers deliveries) ->
             In (fst e) (players deliveries)) /\
  ((List.length (players deliveries) <= 10)%nat ->
   forall p, In p (players deliveries) ->
             In (p, career_runs deliveries p) (top_run_scorers deliveries)).
Proof.
  unfold top_run_scorers, nlargest.
  set (S := group_sum batsman_runs (groupby batter deliveries)).
  assert (LS : List.length (sort_desc S) = List.length (players deliveries)).
  { rewrite (Permutation_length (sort_desc_perm S)).
    unfold S. rewrite <- (length_map fst), group_sum_keys. reflexivity. }
  split; [rewrite length_firstn, LS; reflexivity |].
  split.
  - intros e I. apply firstn_In in I.
    apply (Permutation_in _ (sort_desc_perm S)) in I.
    apply group_sum_In in I. apply I.
  - intros L p P. rewrite firstn_all2 by lia.
    apply (Permutation_in _ (Permutation_sym (sort_desc_perm S))).
    apply career_entry, P.
Qed.

(** X5: the wicket ranking has at most 10 entries, in descending order of
    the counts, no bowler twice, and every bowler in it has taken at least
    one wicket. *)
Theorem top_wicket_takers_ranked (deliveries : list Delivery) :
  (List.length (top_wicket_takers deliveries) <= 10)%nat /\
  StronglySorted desc (top_wicket_takers deliveries) /\
  NoDup (map fst (top_wicket_takers deliveries)) /\
  (forall e, In e (top_wicket_takers deliveries) -> 1 <= snd e).
Proof.
  unfold top_wicket_takers.
  set (W := filter (fun r => is_wicket r =? 1) deliveries).
  split; [apply firstn_le_length |].
  split; [apply firstn_sorted, sort_desc_sorted |].
  split.
  { apply nlargest_keys_NoDup. rewrite group_size_keys.
    apply group_keys_NoDup. }
  intros e I. apply nlargest_In in I. apply group_size_In in I.
  destruct I as [K ->]. apply group_keys_In in K.
  destruct K as [r [Ir B]].
  assert (F : In r (filter (has_key bowler (fst e)) W))
    by (apply filter_In; split; [exact Ir | apply has_key_true, B]).
  destruct (filter (has_key bowler (fst e)) W); [contradiction |].
  simpl. lia.
Qed.

Lemma top_run_scorers_are_largest_witness :
  career_runs eleven_batters "k" <= 10.
Proof.
  apply (top_run_scorers_are_largest eleven_batters ("b", 10) "k").
  - vm_compute. right. left. reflexivity.
  - vm_compute. do 10 right. left. reflexivity.
  - vm_compute. intuition discriminate.
Defined.

Lemma top_run_scorers_size_witness :
  In ("Dhoni", career_runs sample "Dhoni") (top_run_scorers sample).
Proof.
  apply (proj2 (proj2 (top_run_scorers_size sample))).
  - vm_compute. lia.
  - vm_compute. left. reflexivity.
Defined.

Lemma top_wicket_takers_ranked_witness : 1 <= snd ("Malinga", 2).
Proof.
  apply (proj2 (proj2 (proj2 (top_wicket_takers_ranked sample)))).
  vm_compute. left. reflexivity.
Defined.

(** ** The router *)

Lemma prefix_app_l (k s q : string) :
  prefix (k ++ s) q = true -> prefix k q = true.
Proof.
  revert q. induction k as [| a k IH]; intros q H.
  - destruct q; reflexivity.
  - destruct q as [| b q]; simpl in *; [discriminate |].
    destruct (ascii_dec a b); [apply IH, H | discriminate].
Qed.

Lemma str_in_app_l (k s q : string) :
  str_in (k ++ s) q = true -> str_in k q = true.
Proof.
  induction q as [| b q IH]; cbn [str_in]; intro H.
  - destruct (prefix (k ++ s) "") eqn:E; [| discriminate].
    rewrite (prefix_app_l _ _ _ E). reflexivity.
  - destruct (prefix (k ++ s) (String b q)) eqn:E.
    + rewrite (prefix_app_l _ _ _ E). reflexivity.
    + destruct (prefix k (String b q)); [reflexivity | apply IH, H].
Qed.

Lemma any_in_longer (k s1 s2 q : string) :
  any_in [k; (k ++ s1)%string; (k ++ s2)%string] q = str_in k q.
Proof.
  unfold any_in. simpl.
  destruct (str_in k q) eqn:E; [reflexivity |].
  destruct (str_in (k ++ s1) q) eqn:E1;
    [apply str_in_app_l in E1; congruence |].
  destruct (str_in (k ++ s2) q) eqn:E2;
    [apply str_in_app_l in E2; congruence |].
  reflexivity.
Qed.

(** X6: of the three keywords of each intent only the shortest decides: the
    run intent is chosen exactly when the lower-cased question contains
    "run", and otherwise the wicket intent exactly when it contains
    "wicket"; "runs", "run scorer", "wickets" and "wicket taker" change
    nothing. *)
Theorem ask_ai_shortest_keyword (pf : platform) (deliveries : list Delivery)
  (question : string) :
  any_in run_keywords (lower pf question) = str_in "run" (lower pf question) /\
  any_in wicket_keywords (lower pf question)
  = str_in "wicket" (lower pf question) /\
  ask_ai pf deliveries question
  = (if str_in "run" (lower pf question)
     then run_scorer_branch pf deliveries question
     else if str_in "wicket" (lower pf question)
          then wicket_taker_branch pf deliveries question
          else fallback_branch pf question).
Proof.
  assert (R : forall q, any_in run_keywords q = str_in "run" q)
    by (intro q; exact (any_in_longer "run" "s" " scorer" q)).
  assert (W : forall q, any_in wicket_keywords q = str_in "wicket" q)
    by (intro q; exact (any_in_longer "wicket" "s" " taker" q)).
  split; [apply R |]. split; [apply W |].
  unfold ask_ai. rewrite R, W. reflexivity.
Qed.

(** X7: the batter whom a returned run chart shows first has the largest
    run total of the table: no batter of the player list has more. *)
Theorem ask_ai_leader_has_most_runs (pf : platform)
  (deliveries : list Delivery) (question ans third : string)
  (fig : option Figure) :
  any_in run_keywords (lower pf question) = true ->
  ask_ai pf deliveries question = Return (ans, fig, third) ->
  exists f leader rest,
    fig = Some f /\ fig_data f = leader :: rest /\
    forall p, In p (players deliveries) ->
              career_runs deliveries p <= snd leader.
Proof.
  intros R H. unfold ask_ai in H. rewrite R in H.
  unfold run_scorer_branch in H.
  destruct (top_run_scorers deliveries) as [| leader rest] eqn:T;
    [discriminate |].
  simpl in H.
  match type of H with context [llm_answer pf ?f ?q] =>
    destruct (llm_answer pf f q) as [a | e] end; [| discriminate].
  simpl in H. injection H as _ <- _.
  eexists. exists leader, rest. split; [reflexivity |].
  split; [reflexivity |].
  intros p P. unfold top_run_scorers in T.
  apply (nlargest_head _ _ _ _ T (p, career_runs deliveries p)).
  apply career_entry, P.
Qed.

Lemma ask_ai_leader_has_most_runs_witness :
  exists f leader rest,
    Some (update_layout (px_bar (top_run_scorers sample) "batter"
                           "batsman_runs" 650 ["#4988C4"]) "white" "white")
    = Some f /\ fig_data f = leader :: rest /\
    forall p, In p (players sample) -> career_runs sample p <= snd leader.
Proof.
  apply (ask_ai_leader_has_most_runs (answering "ok") sample
           "top run scorer?" "ok" EmptyString);
    reflexivity.
Defined.

Lemma group_keys_nil (key : Delivery -> option string) (df : list Delivery) :
  (forall r, In r df -> key r = None) -> group_keys key df = [].
Proof.
  intro H. destruct (group_keys key df) as [| k t] eqn:E; [reflexivity |].
  assert (I : In k (group_keys key df)) by (rewrite E; left; reflexivity).
  apply group_keys_In in I. destruct I as [r [Ir K]].
  rewrite (H r Ir) in K. discriminate.
Qed.

(** X8: on a table with at least one row, a question routed to a ranking
    that is empty raises [IndexError] whatever the remote service would
    answer: the run intent when no delivery names its batter, the wicket
    intent when no delivery with [is_wicket] 1 names its bowler. *)
Theorem ask_ai_empty_ranking (pf : platform) (deliveries : list Delivery)
  (question : string) :
  deliveries <> [] ->
  (any_in run_keywords (lower pf question) = true ->
   (forall r, In r deliveries -> batter r = None) ->
   ask_ai pf deliveries question = Raise IndexError) /\
  (any_in run_keywords (lower pf question) = false ->
   any_in wicket_keywords (lower pf question) = true ->
   (forall r, In r deliveries -> is_wicket r = 1 -> bowler r = None) ->
   ask_ai pf deliveries question = Raise IndexError).
Proof.
  intros _. split.
  - intros R H. unfold ask_ai. rewrite R.
    unfold run_scorer_branch, top_run_scorers, groupby.
    rewrite (group_keys_nil batter deliveries H). reflexivity.
  - intros R W H. unfold ask_ai. rewrite R, W.
    unfold wicket_taker_branch, top_wicket_takers, groupby.
    rewrite group_keys_nil; [reflexivity |].
    intros r I. apply filter_In in I. destruct I as [I K].
    apply Z.eqb_eq in K. apply H; assumption.
Qed.

Lemma ask_ai_empty_ranking_witness :
  ask_ai (answering "ok") [anonymous 1; anonymous 4] "most runs?"
  = Raise IndexError /\
  ask_ai (answering "ok") two_seasons "most wickets?" = Raise IndexError.
Proof.
  split.
  - apply (proj1 (ask_ai_empty_ranking (answering "ok")
                    [anonymous 1; anonymous 4] "most runs?"
                    ltac:(discriminate)));
      [reflexivity |].
    intros r [<- | [<- | []]]; reflexivity.
  - apply (proj2 (ask_ai_empty_ranking (answering "ok") two_seasons
                    "most wickets?" ltac:(discriminate)));
      [reflexivity | reflexivity |].
    intros r I W. simpl in I.
    repeat (destruct I as [<- | I]; [discriminate W |]). contradiction.
Defined.

(** ** The prompt *)

Lemma prefix_self_app (k s : string) : prefix k (k ++ s) = true.
Proof.
  induction k as [| a k IH]; simpl.
  - destruct s; reflexivity.
  - destruct (ascii_dec a a); [exact IH | congruence].
Qed.

Lemma str_in_here (k s : string) : str_in k (k ++ s) = true.
Proof.
  destruct (k ++ s)%string eqn:E; cbn [str_in]; rewrite <- E;
    rewrite prefix_self_app; reflexivity.
Qed.

Lemma str_in_later (k a b : string) :
  str_in k b = true -> str_in k (a ++ b) = true.
Proof.
  intro H. induction a as [| c a IH]; [exact H |].
  change (String c a ++ b)%string with (String c (a ++ b)).
  cbn [str_in]. rewrite IH.
  destruct (prefix k (String c (a ++ b))); reflexivity.
Qed.

Lemma str_in_refl (k : string) : str_in k k = true.
Proof.
  rewrite <- (str_in_here k EmptyString).
  f_equal. induction k as [| a k IH]; simpl; congruence.
Qed.

Lemma concat_contains (sep x : string) (ls : list string) :
  In x ls -> str_in x (String.concat sep ls) = true.
Proof.
  induction ls as [| y t IH]; intro I; [contradiction |].
  destruct t as [| z t].
  - destruct I as [<- | []]. apply str_in_refl.
  - change (String.concat sep (y :: z :: t))
      with (y ++ sep ++ String.concat sep (z :: t))%string.
    destruct I as [<- | I].
    + apply str_in_here.
    + apply str_in_later, str_in_later, IH, I.
Qed.

(** X9: the prompt sent to the remote service holds the facts and the
    question word for word, and it is the content of the one message of the
    request, sent in the user role. *)
Theorem prompt_holds_facts_and_question (facts question : string) :
  str_in facts (prompt_of facts question) = true /\
  str_in question (prompt_of facts question) = true /\
  messages (request_of (prompt_of facts question))
  = [("user", prompt_of facts question)].
Proof.
  split; [| split; [| reflexivity]];
    apply concat_contains; simpl; tauto.
Qed.

(** ** Player statistics *)

Lemma rows_of_In (deliveries : list Delivery) (p : string) (r : Delivery) :
  In r (rows_of deliveries p) <-> In r deliveries /\ batter r = Some p.
Proof. unfold rows_of. rewrite filter_In, has_key_true. tauto. Qed.

Lemma season_keys_nonempty (deliveries : list Delivery) (p : string) :
  group_keys season (rows_of deliveries p) <> [] <->
  has_season_row deliveries p.
Proof.
  unfold has_season_row. split.
  - intro N.
    destruct (group_keys season (rows_of deliveries p)) as [| k t] eqn:E;
      [contradiction N; reflexivity |].
    assert (I : In k (group_keys season (rows_of deliveries p)))
      by (rewrite E; left; reflexivity).
    apply group_keys_In in I. destruct I as [r [Ir K]].
    apply rows_of_In in Ir. exists r. rewrite K.
    split; [tauto |]. split; [tauto | discriminate].
  - intros [r [I [B S]]] E.
    destruct (season r) as [k |] eqn:K; [| contradiction S; reflexivity].
    assert (J : In k (group_keys season (rows_of deliveries p))).
    { apply group_keys_In. exists r. rewrite rows_of_In. auto. }
    rewrite E in J. contradiction.
Qed.

Lemma player_stats_unfold (deliveries : list Delivery) (p : string) :
  player_stats deliveries p
  = (best <- idxmax (player_trend deliveries p) ;;
     Return (career_runs deliveries p,
             strike_rate_of (career_runs deliveries p)
               (Z.of_nat (List.length (rows_of deliveries p))),
             nunique (map match_id (rows_of deliveries p)),
             best)).
Proof. reflexivity. Qed.

Lemma player_trend_nil (deliveries : list Delivery) (p : string) :
  player_trend deliveries p = [] <-> ~ has_season_row deliveries p.
Proof.
  rewrite <- season_keys_nonempty.
  unfold player_trend, group_sum, groupby. fold (rows_of deliveries p).
  destruct (group_keys season (rows_of deliveries p)); simpl; split;
    intro H; try reflexivity; try discriminate.
  - intro N. apply N. reflexivity.
  - exfalso. apply H. discriminate.
Qed.

Lemma player_stats_raises (deliveries : list Delivery) (p : string) :
  ~ has_season_row deliveries p ->
  player_stats deliveries p = Raise ValueError.
Proof.
  intro N. rewrite player_stats_unfold.
  rewrite (proj2 (player_trend_nil deliveries p) N). reflexivity.
Qed.

Lemma player_stats_returns (deliveries : list Delivery) (p : string) :
  has_season_row deliveries p ->
  exists best,
    player_stats deliveries p
    = Return (career_runs deliveries p,
              strike_rate_of (career_runs deliveries p)
                (Z.of_nat (List.length (rows_of deliveries p))),
              nunique (map match_id (rows_of deliveries p)),
              best).
Proof.
  intro H. rewrite player_stats_unfold.
  destruct (player_trend deliveries p) as [| x t] eqn:E.
  - apply player_trend_nil in E. contradiction.
  - eexists. reflexivity.
Qed.

(** X10: [player_stats] returns exactly for the players that have a
    delivery with a known season, and raises [ValueError] for every other
    name; so it also raises for a player of the dropdown list whose
    deliveries all missed the join with the match table. *)
Theorem player_stats_returns_iff (deliveries : list Delivery) (p : string) :
  ((exists s, player_stats deliveries p = Return s) <->
   has_season_row deliveries p) /\
  (~ has_season_row deliveries p ->
   player_stats deliveries p = Raise ValueError) /\
  (In p (players deliveries) ->
   (forall r, In r deliveries -> batter r = Some p -> season r = None) ->
   player_stats deliveries p = Raise ValueError).
Proof.
  split; [| split].
  - split.
    + intros [s H] .
      apply season_keys_nonempty. intro E.
      assert (N : ~ has_season_row deliveries p)
        by (rewrite <- season_keys_nonempty; tauto).
      rewrite (player_stats_raises _ _ N) in H. discriminate.
    + intro H. destruct (player_stats_returns _ _ H) as [b E].
      eexists. exact E.
  - apply player_stats_raises.
  - intros _ H. apply player_stats_raises.
    intros [r [I [B S]]]. apply S, H; assumption.
Qed.

Lemma player_stats_returns_iff_witness :
  In "Kohli" (players (unmatched "Kohli" 4 :: unmatched "Kohli" 6 :: nil)) /\
  player_stats (unmatched "Kohli" 4 :: unmatched "Kohli" 6 :: nil) "Kohli"
  = Raise ValueError.
Proof.
  assert (I : In "Kohli"
                (players (unmatched "Kohli" 4 :: unmatched "Kohli" 6 :: nil)))
    by (vm_compute; left; reflexivity).
  split; [exact I |].
  apply (proj2 (proj2 (player_stats_returns_iff
                         (unmatched "Kohli" 4 :: unmatched "Kohli" 6 :: nil)
                         "Kohli")) I).
  intros r [<- | [<- | []]] _; reflexivity.
Defined.

Lemma unique_length {A : Type} (eqb : A -> A -> bool) (l : list A) :
  (List.length (unique eqb l) <= List.length l)%nat.
Proof.
  induction l as [| x t IH]; simpl; [lia |].
  assert (H := filter_length_le (fun y => negb (eqb y x)) (unique eqb t)).
  lia.
Qed.

(** X11: what [player_stats] returns: the runs are the summed runs of the
    player's deliveries, the player has faced at least one ball, so the
    strike rate is always the rounded quotient and never the 0 of the
    guard, and the number of matches lies between 1 and the number of
    balls. *)
Theorem player_stats_shape (deliveries : list Delivery) (p : string)
  (runs m : Z) (sr : strike_rate) (best : string) :
  player_stats deliveries p = Return (runs, sr, m, best) ->
  let balls := Z.of_nat (List.length (rows_of deliveries p)) in
  runs = career_runs deliveries p /\
  1 <= balls /\
  sr = SrRound2 runs balls /\
  1 <= m <= balls.
Proof.
  intros H balls.
  assert (S : has_season_row deliveries p).
  { apply season_keys_nonempty. intro E.
    assert (N : ~ has_season_row deliveries p)
      by (rewrite <- season_keys_nonempty; tauto).
    rewrite (player_stats_raises _ _ N) in H. discriminate. }
  destruct (player_stats_returns _ _ S) as [b E].
  rewrite E in H. injection H as <- <- <- _.
  assert (B : 1 <= balls).
  { destruct S as [r [I [Bt _]]].
    assert (J : In r (rows_of deliveries p)) by (apply rows_of_In; auto).
    subst balls. destruct (rows_of deliveries p); [contradiction |].
    simpl List.length. lia. }
  split; [reflexivity |]. split; [exact B |]. split.
  - unfold strike_rate_of. fold balls.
    destruct (balls =? 0) eqn:Z0; [apply Z.eqb_eq in Z0; lia | reflexivity].
  - unfold nunique. subst balls.
    assert (U := unique_length Z.eqb (map match_id (rows_of deliveries p))).
    rewrite length_map in U.
    destruct (rows_of deliveries p) as [| r t]; [simpl in B; lia |].
    simpl map in *. simpl unique in *. simpl List.length in *. lia.
Qed.

Lemma player_stats_shape_witness :
  10 = career_runs sample "Kohli" /\
  1 <= 3 /\ SrRound2 10 3 = SrRound2 10 3 /\ 1 <= 2 <= 3.
Proof.
  exact (player_stats_shape sample "Kohli" 10 2 (SrRound2 10 3) "2020"
           eq_refl).
Defined.

Lemma idxmax_from_split (best : string * Z) (s : list (string * Z)) :
  exists l1 v l2,
    best :: s = l1 ++ (idxmax_from best s, v) :: l2 /\
    (forall e, In e l1 -> snd e < v) /\
    (forall e, In e l2 -> snd e <= v).
Proof.
  revert best. induction s as [| y t IH]; intro best.
  - exists [], (snd best), []. destruct best. simpl.
    split; [reflexivity |]. split; intros e [].
  - simpl. destruct (snd best <? snd y) eqn:E.
    + apply Z.ltb_lt in E.
      destruct (IH y) as [l1 [v [l2 [H [A B]]]]].
      assert (Y : snd y <= v).
      { assert (I : In y (l1 ++ (idxmax_from y t, v) :: l2))
          by (rewrite <- H; left; reflexivity).
        apply in_app_or in I. destruct I as [I | [I | I]].
        - specialize (A y I). lia.
        - rewrite <- I. simpl. lia.
        - apply B, I. }
      exists (best :: l1), v, l2.
      split; [simpl; rewrite H; reflexivity |].
      split; [| exact B].
      intros e [<- | I]; [lia | apply A, I].
    + apply Z.ltb_ge in E.
      destruct (IH best) as [l1 [v [l2 [H [A B]]]]].
      destruct l1 as [| b l1]; simpl in H; injection H as Hb Ht.
      * exists [], v, (y :: l2).
        split; [simpl; congruence |].
        split; [intros e [] |].
        intros e [<- | I]; [rewrite Hb in E; simpl in E; exact E | apply B, I].
      * exists (b :: y :: l1), v, l2.
        split; [simpl; congruence |].
        split; [| exact B].
        assert (Ab : snd b < v) by (apply A; left; reflexivity).
        intros e [<- | [<- | I]];
          [exact Ab | rewrite Hb in E; lia | apply A; right; exact I].
Qed.

(** X12: the best season of [player_stats] is the season of the player's
    trend with the most runs, and the earliest such season when several
    tie: the seasons before it on the trend have strictly fewer runs, the
    seasons after it no more. *)
Theorem best_season_is_first_maximum (deliveries : list Delivery) (p : string)
  (runs m : Z) (sr : strike_rate) (best : string) :
  player_stats deliveries p = Return (runs, sr, m, best) ->
  exists before v after,
    player_trend deliveries p = before ++ (best, v) :: after /\
    (forall e, In e before -> snd e < v) /\
    (forall e, In e after -> snd e <= v).
Proof.
  rewrite player_stats_unfold. unfold idxmax.
  destruct (player_trend deliveries p) as [| x t]; simpl; [discriminate |].
  intro H. injection H as _ _ _ <-.
  destruct (idxmax_from_split x t) as [l1 [v [l2 H]]].
  exists l1, v, l2. exact H.
Qed.

Lemma best_season_is_first_maximum_witness :
  exists before v after,
    player_trend two_seasons "A" = before ++ ("2021", v) :: after /\
    (forall e, In e before -> snd e < v) /\
    (forall e, In e after -> snd e <= v).
Proof.
  exact (best_season_is_first_maximum two_seasons "A" 80 2 (SrRound2 80 4)
           "2021" eq_refl).
Defined.

Lemma total_groups_skip (key : Delivery -> option string) (col : Delivery -> Z)
  (r : Delivery) (t : list Delivery) (ks : list string) :
  (forall k, In k ks -> key r <> Some k) ->
  total (map (fun k => total (map col (filter (has_key key k) (r :: t)))) ks)
  = total (map (fun k => total (map col (filter (has_key key k) t))) ks).
Proof.
  intro H. f_equal. apply map_ext_in. intros k I. simpl.
  destruct (has_key key k r) eqn:E; [| reflexivity].
  apply has_key_true in E. exfalso. exact (H k I E).
Qed.

Lemma total_cons (x : Z) (l : list Z) : total (x :: l) = x + total l.
Proof. reflexivity. Qed.

Lemma total_groups_step (key : Delivery -> option string) (col : Delivery -> Z)
  (r : Delivery) (t : list Delivery) (ks : list string) (k0 : string) :
  NoDup ks -> In k0 ks -> key r = Some k0 ->
  total (map (fun k => total (map col (filter (has_key key k) (r :: t)))) ks)
  = col r
    + total (map (fun k => total (map col (filter (has_key key k) t))) ks).
Proof.
  intros N I K. induction N as [| k ks Nk N IH]; [contradiction |].
  rewrite !map_cons, !total_cons.
  destruct I as [-> | I].
  - rewrite total_groups_skip by (intros k I E; apply Nk; congruence).
    cbn [filter]. rewrite (proj2 (has_key_true key k0 r) K).
    rewrite map_cons, total_cons. lia.
  - rewrite (IH I). cbn [filter].
    destruct (has_key key k r) eqn:E; [| lia].
    apply has_key_true in E. exfalso. apply Nk. congruence.
Qed.

Lemma total_groups_eq (key : Delivery -> option string) (col : Delivery -> Z)
  (df : list Delivery) (ks : list string) :
  NoDup ks ->
  (forall r, In r df -> exists k, key r = Some k /\ In k ks) ->
  total (map (fun k => total (map col (filter (has_key key k) df))) ks)
  = total (map col df).
Proof.
  intros N H. induction df as [| r t IH].
  - simpl. clear. induction ks; simpl; lia.
  - destruct (H r (or_introl eq_refl)) as [k0 [K I]].
    rewrite (total_groups_step key col r t ks k0 N I K).
    rewrite IH by (intros r' I'; apply H; right; exact I').
    reflexivity.
Qed.

Lemma total_filter_le {A : Type} (col : A -> Z) (f : A -> bool) (l : list A) :
  (forall a, In a l -> 0 <= col a) ->
  0 <= total (map col (filter f l)) <= total (map col l).
Proof.
  induction l as [| x t IH]; simpl; intro H; [lia |].
  assert (0 <= col x) by (apply H; auto).
  assert (0 <= total (map col (filter f t)) <= total (map col t))
    by (apply IH; auto).
  destruct (f x); simpl; lia.
Qed.

(** X13: when every delivery of the player has a season and none has
    negative runs, and the exact sum of the player's runs fits the 64-bit
    column, the totals of the season trend add up to the runs that
    [player_stats] reports. *)
Theorem player_trend_adds_up (deliveries : list Delivery) (p : string) :
  (forall r, In r deliveries -> batter r = Some p -> season r <> None) ->
  (forall r, In r deliveries -> batter r = Some p -> 0 <= batsman_runs r) ->
  total (map batsman_runs (rows_of deliveries p)) < 2 ^ 63 ->
  total (map snd (player_trend deliveries p)) = career_runs deliveries p.
Proof.
  intros Hs Hn Hb.
  unfold player_trend, career_runs, group_sum, groupby.
  fold (rows_of deliveries p). set (df := rows_of deliveries p) in *.
  assert (N : forall r, In r df -> 0 <= batsman_runs r).
  { intros r I. apply rows_of_In in I. apply Hn; tauto. }
  rewrite !map_map. simpl.
  rewrite (map_ext_in _
             (fun k => total (map batsman_runs
                                (filter (has_key season k) df)))).
  2:{ intros k _. rewrite sum_i64_total. apply wrap64_small.
      assert (B := total_filter_le batsman_runs (has_key season k) df N).
      lia. }
  rewrite total_groups_eq.
  - rewrite sum_i64_total. symmetry. apply wrap64_small.
    assert (0 <= total (map batsman_runs df)); [| lia].
    apply total_nonneg. rewrite Forall_forall. intros z Hz.
    apply in_map_iff in Hz. destruct Hz as [r [<- I]]. apply N, I.
  - apply group_keys_NoDup.
  - intros r I. assert (J := I). apply rows_of_In in J.
    destruct (season r) as [k |] eqn:K.
    + exists k. split; [reflexivity |].
      apply group_keys_In. exists r. auto.
    + exfalso. apply (Hs r); tauto.
Qed.

Lemma player_trend_adds_up_witness :
  total (map snd (player_trend two_seasons "A")) = career_runs two_seasons "A".
Proof.
  apply (player_trend_adds_up two_seasons "A").
  - intros r H _. simpl in H.
    repeat (destruct H as [<- | H]; [discriminate |]). contradiction.
  - intros r H _. simpl in H.
    repeat (destruct H as [<- | H]; [simpl; lia |]). contradiction.
  - vm_compute. reflexivity.
Defined.

(** X14: [player_trend] never raises: for the names on which
    [player_stats] raises [ValueError], and only for them, it returns the
    empty trend. *)
Theorem player_trend_empty_iff_stats_raise (deliveries : list Delivery)
  (p : string) :
  player_trend deliveries p = [] <->
  player_stats deliveries p = Raise ValueError.
Proof.
  rewrite player_trend_nil. split.
  - apply player_stats_raises.
  - intros H S. destruct (player_stats_returns _ _ S) as [b E].
    rewrite E in H. discriminate.
Qed.

(** ** The comparison and the player panel *)

Lemma player_stats_only_ValueError (deliveries : list Delivery) (p : string)
  (e : exn) :
  player_stats deliveries p = Raise e -> e = ValueError.
Proof.
  rewrite player_stats_unfold. unfold idxmax.
  destruct (player_trend deliveries p); simpl; intro H;
    [congruence | discriminate].
Qed.

Lemma player_stats_Return_row (deliveries : list Delivery) (p : string)
  (s : Z * strike_rate * Z * string) :
  player_stats deliveries p = Return s ->
  has_season_row deliveries p /\
  fst (fst (fst s)) = career_runs deliveries p.
Proof.
  intro H.
  assert (S : has_season_row deliveries p).
  { apply season_keys_nonempty. intro E.
    assert (N : ~ has_season_row deliveries p)
      by (rewrite <- season_keys_nonempty; tauto).
    rewrite (player_stats_raises _ _ N) in H. discriminate. }
  split; [exact S |].
  destruct (player_stats_returns _ _ S) as [b E].
  rewrite E in H. injection H as <-. reflexivity.
Qed.

(** X15: the comparison needs both players: when one of the two names has
    no delivery with a known season, [compare_players] raises [ValueError],
    whatever the remote service would answer. *)
Theorem compare_players_needs_both (pf : platform)
  (deliveries : list Delivery) (p1 p2 : string) :
  ~ has_season_row deliveries p1 \/ ~ has_season_row deliveries p2 ->
  compare_players pf deliveries p1 p2 = Raise ValueError.
Proof.
  intro H. unfold compare_players.
  destruct (player_stats deliveries p1) as [[[[r1 sr1] m1] b1] | e] eqn:E1.
  - destruct (player_stats_Return_row _ _ _ E1) as [S1 _].
    destruct H as [H | H]; [contradiction |].
    simpl. rewrite (player_stats_raises _ _ H). reflexivity.
  - simpl. rewrite (player_stats_only_ValueError _ _ _ E1). reflexivity.
Qed.

Lemma compare_players_needs_both_witness :
  compare_players (answering "ok") sample "Kohli" "Tendulkar"
  = Raise ValueError.
Proof.
  apply (compare_players_needs_both (answering "ok") sample).
  right. intros [r [I [B _]]]. simpl in I.
  repeat (destruct I as [<- | I]; [discriminate B |]). contradiction.
Defined.

(** X16: a comparison that returns shows exactly two bars, the first
    player's summed runs and then the second's, and both players have a
    delivery with a known season; and the comparison does return for two
    such players when the remote service answers. *)
Theorem compare_players_chart (pf : platform) (deliveries : list Delivery)
  (p1 p2 : string) :
  (forall ans fig,
     compare_players pf deliveries p1 p2 = Return (ans, fig) ->
     fig_data fig = [(p1, career_runs deliveries p1);
                     (p2, career_runs deliveries p2)] /\
     has_season_row deliveries p1 /\ has_season_row deliveries p2) /\
  (has_season_row deliveries p1 -> has_season_row deliveries p2 ->
   (forall req, returns (chat_completion pf req) = true) ->
   returns (compare_players pf deliveries p1 p2) = true).
Proof.
  unfold compare_players, llm_answer. split.
  - intros ans fig.
    destruct (player_stats deliveries p1) as [[[[r1 sr1] m1] b1] | e] eqn:E1;
      simpl; [| discriminate].
    destruct (player_stats deliveries p2) as [[[[r2 sr2] m2] b2] | e] eqn:E2;
      simpl; [| discriminate].
    destruct (chat_completion pf _) as [a | e]; simpl; [| discriminate].
    intro H. injection H as _ <-. simpl.
    destruct (player_stats_Return_row _ _ _ E1) as [S1 R1].
    destruct (player_stats_Return_row _ _ _ E2) as [S2 R2].
    simpl in R1, R2. subst. auto.
  - intros S1 S2 C.
    destruct (player_stats_returns _ _ S1) as [b1 ->].
    destruct (player_stats_returns _ _ S2) as [b2 ->]. simpl.
    match goal with |- context [chat_completion pf ?r] =>
      specialize (C r); destruct (chat_completion pf r) end;
      [reflexivity | discriminate C].
Qed.

Lemma compare_players_chart_witness :
  returns (compare_players (answering "ok") sample "Kohli" "Dhoni") = true.
Proof.
  apply (proj2 (compare_players_chart (answering "ok") sample
                  "Kohli" "Dhoni")).
  - exists (ball 2 "Kohli" "Bumrah" 4 0 "2021"). simpl.
    split; [auto |]. split; [reflexivity | discriminate].
  - exists (ball 1 "Dhoni" "Malinga" 1 0 "2020"). simpl.
    split; [auto |]. split; [reflexivity | discriminate].
  - intro req. reflexivity.
Defined.

(** X17: the player panel makes no remote call and returns exactly for the
    players with a delivery of known season, raising [ValueError] for the
    others; the line chart it returns has markers and shows the player's
    trend, which then has at least one point, one per season in strictly
    ascending order. *)
Theorem update_player_chart (pf : platform) (deliveries : list Delivery)
  (p : string) :
  ((exists out, update_player pf deliveries p = Return out) <->
   has_season_row deliveries p) /\
  (~ has_season_row deliveries p ->
   update_player pf deliveries p = Raise ValueError) /\
  (forall card fig,
     update_player pf deliveries p = Return (card, fig) ->
     fig_kind (line_figure fig) = Line /\
     line_markers fig = true /\
     fig_data (line_figure fig) = player_trend deliveries p /\
     player_trend deliveries p <> [] /\
     StronglySorted str_lt (map fst (fig_data (line_figure fig)))).
Proof.
  unfold update_player. split; [| split].
  - split.
    + intros [out H].
      destruct (player_stats deliveries p) as [s | e] eqn:E;
        [| discriminate].
      apply (player_stats_Return_row _ _ _ E).
    + intro S. destruct (player_stats_returns _ _ S) as [b ->].
      simpl. eexists. reflexivity.
  - intro N. rewrite (player_stats_raises _ _ N). reflexivity.
  - intros card fig.
    destruct (player_stats deliveries p) as [[[[r sr] m] b] | e] eqn:E;
      simpl; [| discriminate].
    intro H. injection H as _ <-. simpl.
    destruct (player_stats_Return_row _ _ _ E) as [S _].
    repeat split.
    + intro T. apply player_trend_nil in T. contradiction.
    + unfold player_trend. rewrite group_sum_keys. apply group_keys_sorted.
Qed.

Lemma update_player_chart_witness :
  update_player (answering "ok") sample "Tendulkar" = Raise ValueError.
Proof.
  apply (proj1 (proj2 (update_player_chart (answering "ok") sample
                         "Tendulkar"))).
  intros [r [I [B _]]]. simpl in I.
  repeat (destruct I as [<- | I]; [discriminate B |]). contradiction.
Defined.

(** C9: comparing a player with itself gives both slots the statistics of
    that one player, with no case of its own for equal names: when the
    player has a delivery with a known season, the facts sent to the remote
    service hold the same line of runs, strike rate and matches twice and
    the chart has two bars of the same height under the same name.  It does
    not do so for every name: for a name without such a delivery, also one
    of the dropdown list, the best-season lookup of [player_stats] raises
    [ValueError] and the comparison produces nothing. *)
Theorem compare_players_self (pf : platform) (deliveries : list Delivery)
  (p : string) :
  (~ has_season_row deliveries p ->
   compare_players pf deliveries p p = Raise ValueError) /\
  (has_season_row deliveries p ->
   let r := career_runs deliveries p in
   let sr :=
     strike_rate_of r (Z.of_nat (List.length (rows_of deliveries p))) in
   let m := nunique (map match_id (rows_of deliveries p)) in
   let line :=
     cat [p; ": "; str_of_int r; " runs, strike rate "; str_of_sr pf sr;
          ", "; str_of_int m; " matches"] in
   let facts :=
     String.concat nl [EmptyString; "In the IPL:"; line; line; EmptyString] in
   compare_players pf deliveries p p
   = (content <- chat_completion pf
                   (request_of
                      (prompt_of facts (cat ["Compare "; p; " vs "; p]))) ;;
      Return (strip pf content,
              update_layout
                (px_bar [(p, r); (p, r)] "Player" "Runs" 550 ["#0F2854"])
                "white" "white"))).
Proof.
  split.
  - intro N. unfold compare_players.
    rewrite (player_stats_raises _ _ N). reflexivity.
  - intros S r sr m line facts.
    destruct (player_stats_returns _ _ S) as [b E].
    unfold compare_players, llm_answer. rewrite E. simpl.
    destruct (chat_completion pf _); reflexivity.
Qed.

Lemma compare_players_self_witness :
  In "Gill" (players (merge_left sample_csv sample_matches)) /\
  compare_players (answering "ok") (merge_left sample_csv sample_matches)
    "Gill" "Gill"
  = Raise ValueError /\
  compare_players (answering " Even. ") sample "Kohli" "Kohli"
  = Return ("Even.",
            update_layout
              (px_bar [("Kohli", 10); ("Kohli", 10)] "Player" "Runs" 550
                 ["#0F2854"])
              "white" "white").
Proof.
  split; [vm_compute; right; left; reflexivity |]. split.
  - apply (proj1 (compare_players_self (answering "ok")
                    (merge_left sample_csv sample_matches) "Gill")).
    intros [r [I [B S]]]. simpl in I.
    destruct I as [<- | [<- | [<- | []]]];
      [discriminate B | discriminate B | apply S; reflexivity].
  - rewrite (proj2 (compare_players_self (answering " Even. ") sample
                      "Kohli")).
    + reflexivity.
    + exists (ball 2 "Kohli" "Bumrah" 4 0 "2021"). simpl.
      split; [auto |]. split; [reflexivity | discriminate].
Defined.
